(** * DocEnhancer: the extraction pipeline, the document builder,
      the enhancement client and the document save, verified

    A shallow embedding of [utils/processor.py] ([process_document],
    [create_word_doc]) and of [main.py] ([start_ollama_server],
    [check_ollama_connection], [enhance_text_with_ollama],
    [save_to_firestore]).

    Python text is a list of code points, Python exceptions are values
    carried in a sum type, and every call that leaves the process (HTTP,
    child process, clock, file system, PDF and OCR libraries, Firestore)
    is answered by an explicit environment record, so that each function
    of the source is an executable Rocq function over that record. *)

From Stdlib Require Import ZArith QArith List String Ascii Bool Lia Lqa.
From Stdlib Require Import DecimalString HexadecimalString.
From stdpp Require Import gmap.
Import ListNotations.

Local Open Scope Z_scope.

(** ** Python values shared by the three source files *)
Module Py.

(** A [str] is a sequence of Unicode code points. *)
Abbreviation str := (list N).

(** An ASCII literal of the source. *)
Definition lit (s : string) : str :=
  List.map N_of_ascii (list_ascii_of_string s).

Definition NL : N := 10%N.

(** [s[:n]] for a non-negative [n]. *)
Definition slice_to (n : Z) (s : str) : str := firstn (Z.to_nat n) s.

Fixpoint startswith (s p : str) : bool :=
  match p, s with
  | [], _ => true
  | _ :: _, [] => false
  | a :: p', b :: s' => N.eqb a b && startswith s' p'
  end.

(** [s.endswith(suffix)]. *)
Definition endswith (s suffix : str) : bool :=
  startswith (rev s) (rev suffix).

(** [sep.join(parts)]. *)
Fixpoint join (sep : str) (parts : list str) : str :=
  match parts with
  | [] => []
  | [p] => p
  | p :: rest => p ++ sep ++ join sep rest
  end.

(** [s.split(sep)] for a one-character separator: a cut at every
    occurrence, empty pieces kept, never an empty result. *)
Fixpoint split (sep : N) (s : str) : list str :=
  match s with
  | [] => [[]]
  | c :: s' =>
      if N.eqb c sep then [] :: split sep s'
      else match split sep s' with
           | [] => [[c]]
           | piece :: pieces => (c :: piece) :: pieces
           end
  end.

(** The characters [str.strip()] removes: the ASCII table of CPython
    ([\t \n \v \f \r], 0x1c-0x1f, space) and the code points with the
    Unicode White_Space property. *)
Definition isspace (c : N) : bool :=
  ((9 <=? c) && (c <=? 13) || (28 <=? c) && (c <=? 32)
   || (c =? 133) || (c =? 160) || (c =? 5760)
   || (8192 <=? c) && (c <=? 8202)
   || (c =? 8232) || (c =? 8233) || (c =? 8239) || (c =? 8287)
   || (c =? 12288))%N.

Fixpoint lstrip (s : str) : str :=
  match s with
  | [] => []
  | c :: s' => if isspace c then lstrip s' else s
  end.

(** [s.strip()]. *)
Definition strip (s : str) : str := rev (lstrip (rev (lstrip s))).

(** Truth value of a string: non-empty. *)
Definition truthy (s : str) : bool :=
  match s with [] => false | _ :: _ => true end.

(** The exception classes the handlers of the source tell apart.
    [RequestException] stands for [requests.exceptions.RequestException]
    and all its subclasses ([requests]' own ConnectionError, Timeout,
    HTTPError, ...). [ConnectionError] is the builtin one, a subclass
    of [OSError] and not of [RequestException]. [NotAnException] stands
    for the classes that derive from [BaseException] only. *)
Inductive exn_class :=
| RequestException
| ConnectionError
| ValueError
| KeyError
| TypeError
| OSError
| OtherException
| NotAnException.

(** An exception, with the text [str(e)] gives for it. *)
Record exn := Exn { exn_cls : exn_class; exn_str : str }.

(** [isinstance(e, requests.exceptions.RequestException)] *)
Definition is_RequestException (e : exn) : bool :=
  match exn_cls e with RequestException => true | _ => false end.

(** [isinstance(e, Exception)] *)
Definition is_Exception (e : exn) : bool :=
  match exn_cls e with NotAnException => false | _ => true end.

(** A parsed JSON document, as [response.json()] returns it. A dict is
    the list of its bindings; a key is looked up from the left. *)
#[local] Unset Elimination Schemes.
Inductive value :=
| VNone
| VBool (b : bool)
| VInt (z : Z)
| VFloat (q : Q)
| VStr (s : str)
| VList (items : list value)
| VDict (bindings : list (str * value)).
#[local] Set Elimination Schemes.

Definition str_eqb (a b : str) : bool :=
  if decide (a = b) then true else false.

Fixpoint dict_get (bindings : list (str * value)) (key : str) : option value :=
  match bindings with
  | [] => None
  | (k, v) :: rest => if str_eqb k key then Some v else dict_get rest key
  end.

(** [v[key]] for a string key. *)
Definition getitem (v : value) (key : str) : exn + value :=
  match v with
  | VDict bindings =>
      match dict_get bindings key with
      | Some x => inr x
      | None => inl (Exn KeyError (lit "'" ++ key ++ lit "'"))
      end
  | VList _ =>
      inl (Exn TypeError (lit "list indices must be integers or slices, not str"))
  | VStr _ =>
      inl (Exn TypeError (lit "string indices must be integers, not 'str'"))
  | VNone => inl (Exn TypeError (lit "'NoneType' object is not subscriptable"))
  | VBool _ => inl (Exn TypeError (lit "'bool' object is not subscriptable"))
  | VInt _ => inl (Exn TypeError (lit "'int' object is not subscriptable"))
  | VFloat _ => inl (Exn TypeError (lit "'float' object is not subscriptable"))
  end.

End Py.
Import Py.

(** ** The enhancement client of [main.py] *)
Module Enhance.

Definition OLLAMA_URL : str := lit "http://localhost:11434".
Definition OLLAMA_MODEL : str := lit "deepseek-r1:7b".
Definition MAX_RETRIES : Z := 3.
Definition INITIAL_TIMEOUT : Z := 30.
Definition TIMEOUT_BACKOFF_FACTOR : Z := 2.

(** The arguments of the [requests.post] call of lines 68-90. *)
Record chat_request := ChatRequest {
  req_url : str;
  req_model : str;
  req_messages : list (str * str);   (* role, content *)
  req_stream : bool;
  req_temperature : Q;
  req_top_p : Q;
  req_repeat_penalty : Q;
  req_timeout : Z
}.

(** What [requests] hands back for a POST that did not raise:
    [http_error] is the text of the [HTTPError] that
    [raise_for_status] builds, [json_body] is what [.json()] does. *)
Record response := Response {
  status_code : Z;
  http_error : str;
  json_body : exn + value
}.

(** The backend and the operating system, as a script: the answer to
    the n-th GET of the status route, to the n-th launch of
    [ollama serve] ([None]: the child was started), and to the n-th
    POST of the chat route. *)
Record backend := Backend {
  get_tags : nat -> exn + Z;
  popen_serve : nat -> option exn;
  post_chat : nat -> chat_request -> exn + response
}.

(** What the process does to the outside, in order. *)
Inductive event :=
| EvGet (url : str) (timeout : Z)
| EvPopen (argv : list str)
| EvSleep (seconds : Q)
| EvPost (req : chat_request)
| EvStError (message : str).

(** How many calls of each kind were made so far. *)
Record calls := Calls { n_get : nat; n_popen : nat; n_post : nat }.

Definition calls0 : calls := Calls 0 0 0.

(** Effectful code: reads and advances the call counters, and logs the
    events it causes. *)
Definition M (A : Type) : Type := calls -> A * calls * list event.

Definition ret {A} (a : A) : M A := fun c => (a, c, []).

Definition bind {A B} (m : M A) (k : A -> M B) : M B :=
  fun c =>
    let '(a, c1, l1) := m c in
    let '(b, c2, l2) := k a c1 in
    (b, c2, l1 ++ l2).

Notation "'do' x <- m ; k" := (bind m (fun x => k))
  (at level 10, x name, m at level 100, k at level 200).
Notation "'do_' m ; k" := (bind m (fun _ => k))
  (at level 10, m at level 100, k at level 200).

Section Client.

Variable b : backend.

Definition requests_get (url : str) (timeout : Z) : M (exn + Z) :=
  fun c => (get_tags b (n_get c),
            Calls (S (n_get c)) (n_popen c) (n_post c),
            [EvGet url timeout]).

Definition subprocess_Popen (argv : list str) : M (option exn) :=
  fun c => (popen_serve b (n_popen c),
            Calls (n_get c) (S (n_popen c)) (n_post c),
            [EvPopen argv]).

Definition requests_post (req : chat_request) : M (exn + response) :=
  fun c => (post_chat b (n_post c) req,
            Calls (n_get c) (n_popen c) (S (n_post c)),
            [EvPost req]).

Definition time_sleep (seconds : Q) : M unit :=
  fun c => (tt, c, [EvSleep seconds]).

Definition st_error (message : str) : M unit :=
  fun c => (tt, c, [EvStError message]).

(** Lines 32-41. The bare [except] turns any failure of the launch
    into [False]. *)
Definition start_ollama_server : M bool :=
  do r <- subprocess_Popen [lit "ollama"; lit "serve"];
  match r with
  | None => do_ time_sleep (3 # 1); ret true
  | Some _ => ret false
  end.

Definition tags_url : str := OLLAMA_URL ++ lit "/api/tags".

(** Lines 43-57. *)
Definition check_ollama_connection : M bool :=
  do r <- requests_get tags_url 5;
  match r with
  | inr status => ret (status =? 200)
  | inl _ =>
      do started <- start_ollama_server;
      if negb started then ret false
      else
        do_ time_sleep (5 # 1);
        do r2 <- requests_get tags_url 5;
        match r2 with
        | inr status => ret (status =? 200)
        | inl _ => ret false
        end
  end.

(** The JSON body and the timeout of lines 68-90. *)
Definition build_request (text : str) (timeout : Z) : chat_request :=
  {| req_url := OLLAMA_URL ++ lit "/api/chat";
     req_model := OLLAMA_MODEL;
     req_messages :=
       [ (lit "system",
          lit "You are a professional editor. Improve this document while preserving its meaning:");
         (lit "user", slice_to 20000 text) ];
     req_stream := false;
     req_temperature := 7 # 10;
     req_top_p := 9 # 10;
     req_repeat_penalty := 11 # 10;
     req_timeout := timeout |}.

(** [response.raise_for_status()]: an [HTTPError] for a 4xx or 5xx. *)
Definition raise_for_status (r : response) : option exn :=
  if (400 <=? status_code r) && (status_code r <? 600)
  then Some (Exn RequestException (http_error r))
  else None.

(** Lines 68-92 once [requests.post] has answered:
    [response.raise_for_status()], then
    [response.json()["message"]["content"]]. *)
Definition read_response (answer : exn + response) : exn + value :=
  match answer with
  | inl e => inl e
  | inr r =>
      match raise_for_status r with
      | Some e => inl e
      | None =>
          match json_body r with
          | inl e => inl e
          | inr body =>
              match getitem body (lit "message") with
              | inl e => inl e
              | inr message => getitem message (lit "content")
              end
          end
      end
  end.

(** The [try] block, lines 65-92: the value returned or the exception
    raised inside it. *)
Definition try_block (text : str) (timeout : Z) : M (exn + value) :=
  do up <- check_ollama_connection;
  if negb up
  then ret (inl (Exn ConnectionError (lit "Ollama server unavailable")))
  else
    do answer <- requests_post (build_request text timeout);
    ret (read_response answer).

(** The statement through which a call leaves the function. *)
Inductive exit :=
| ReturnContent (v : value)     (* line 92 *)
| Reraise (e : exn)             (* line 96 *)
| ReturnInput (text : str)      (* line 103 *)
| Propagate (e : exn)           (* no handler matches *)
| FallbackReturn (text : str).  (* line 105 *)

(** What the caller sees. *)
Definition outcome (x : exit) : exn + value :=
  match x with
  | ReturnContent v => inr v
  | Reraise e | Propagate e => inl e
  | ReturnInput text | FallbackReturn text => inr (VStr text)
  end.

(** One iteration either leaves the function or goes on with the next
    value of the local [timeout]. *)
Inductive step :=
| Exit (x : exit)
| Continue (timeout : Z).

(** The body of the [for] loop, lines 64-103. *)
Definition attempt_body (max_retries : Z) (text : str)
    (attempt timeout : Z) : M step :=
  do r <- try_block text timeout;
  match r with
  | inr v => ret (Exit (ReturnContent v))
  | inl e =>
      if is_RequestException e then
        if attempt =? max_retries - 1 then ret (Exit (Reraise e))
        else
          do_ time_sleep (inject_Z timeout * (1 # 2));
          ret (Continue (timeout * TIMEOUT_BACKOFF_FACTOR))
      else if is_Exception e then
        do_ st_error (lit "Unexpected error: " ++ exn_str e);
        ret (Exit (ReturnInput text))
      else ret (Exit (Propagate e))
  end.

(** [for attempt in attempts: ...] followed by line 105. *)
Fixpoint retry_loop (max_retries : Z) (text : str)
    (attempts : list Z) (timeout : Z) : M exit :=
  match attempts with
  | [] => ret (FallbackReturn text)
  | attempt :: rest =>
      do s <- attempt_body max_retries text attempt timeout;
      match s with
      | Exit x => ret x
      | Continue timeout' => retry_loop max_retries text rest timeout'
      end
  end.

(** [range(n)] *)
Definition range (n : Z) : list Z :=
  List.map Z.of_nat (seq 0 (Z.to_nat n)).

(** The function with its constant [MAX_RETRIES] as a parameter. *)
Definition enhance_with (max_retries : Z) (text : str) : M exit :=
  retry_loop max_retries text (range max_retries) INITIAL_TIMEOUT.

(** Lines 59-105. *)
Definition enhance_text_with_ollama (text : str) : M exit :=
  enhance_with MAX_RETRIES text.

End Client.

(** The timeouts of the POSTs of a log, in order. *)
Fixpoint post_timeouts (log : list event) : list Z :=
  match log with
  | [] => []
  | EvPost req :: rest => req_timeout req :: post_timeouts rest
  | _ :: rest => post_timeouts rest
  end.

(** The POSTs of a log, in order. *)
Fixpoint posts (log : list event) : list chat_request :=
  match log with
  | [] => []
  | EvPost req :: rest => req :: posts rest
  | _ :: rest => posts rest
  end.

(** The sleeps that come directly after a POST: those of line 97. The
    sleeps of the probe come after a launch or after another sleep. *)
Fixpoint backoff_sleeps (log : list event) : list Q :=
  match log with
  | [] => []
  | EvPost _ :: rest =>
      match rest with
      | EvSleep d :: _ => d :: backoff_sleeps rest
      | _ => backoff_sleeps rest
      end
  | _ :: rest => backoff_sleeps rest
  end.

(** The events of a liveness probe: everything but a POST and a
    diagnostic. *)
Definition is_probe_event (ev : event) : bool :=
  match ev with
  | EvPost _ | EvStError _ => false
  | _ => true
  end.

Definition unavailable_message : str :=
  lit "Unexpected error: Ollama server unavailable".

(** [doubling t k] is [t, 2t, 4t, ...], [k] values. *)
Fixpoint doubling (t : Z) (k : nat) : list Z :=
  match k with
  | O => []
  | S k' => t :: doubling (t * TIMEOUT_BACKOFF_FACTOR) k'
  end.

(** The ways through one iteration, read off [attempt_body]: the POST
    of the iteration is the [p]-th of the call, [p'] POSTs have been
    made when it ends. *)
Inductive attempt_run (b : backend) (max_retries : Z) (text : str)
    (attempt timeout : Z) (p : nat) : step -> nat -> list event -> Prop :=
| Attempt_unavailable probe :
    forallb is_probe_event probe = true ->
    attempt_run b max_retries text attempt timeout p
      (Exit (ReturnInput text)) p
      (probe ++ [EvStError unavailable_message])
| Attempt_content probe v :
    forallb is_probe_event probe = true ->
    read_response (post_chat b p (build_request text timeout)) = inr v ->
    attempt_run b max_retries text attempt timeout p
      (Exit (ReturnContent v)) (S p)
      (probe ++ [EvPost (build_request text timeout)])
| Attempt_reraise probe e :
    forallb is_probe_event probe = true ->
    read_response (post_chat b p (build_request text timeout)) = inl e ->
    is_RequestException e = true ->
    attempt = max_retries - 1 ->
    attempt_run b max_retries text attempt timeout p
      (Exit (Reraise e)) (S p)
      (probe ++ [EvPost (build_request text timeout)])
| Attempt_retry probe e :
    forallb is_probe_event probe = true ->
    read_response (post_chat b p (build_request text timeout)) = inl e ->
    is_RequestException e = true ->
    attempt <> max_retries - 1 ->
    attempt_run b max_retries text attempt timeout p
      (Continue (timeout * TIMEOUT_BACKOFF_FACTOR)) (S p)
      (probe ++ [EvPost (build_request text timeout);
                 EvSleep (inject_Z timeout * (1 # 2))])
| Attempt_degrade probe e :
    forallb is_probe_event probe = true ->
    read_response (post_chat b p (build_request text timeout)) = inl e ->
    is_RequestException e = false ->
    is_Exception e = true ->
    attempt_run b max_retries text attempt timeout p
      (Exit (ReturnInput text)) (S p)
      (probe ++ [EvPost (build_request text timeout);
                 EvStError (lit "Unexpected error: " ++ exn_str e)])
| Attempt_propagate probe e :
    forallb is_probe_event probe = true ->
    read_response (post_chat b p (build_request text timeout)) = inl e ->
    is_RequestException e = false ->
    is_Exception e = false ->
    attempt_run b max_retries text attempt timeout p
      (Exit (Propagate e)) (S p)
      (probe ++ [EvPost (build_request text timeout)]).

(** The runs of the loop, read off [retry_loop]. *)
Inductive loop_run (b : backend) (max_retries : Z) (text : str)
    : list Z -> Z -> nat -> exit -> nat -> list event -> Prop :=
| Loop_exhausted timeout p :
    loop_run b max_retries text [] timeout p (FallbackReturn text) p []
| Loop_exit attempt rest timeout p x p' log :
    attempt_run b max_retries text attempt timeout p (Exit x) p' log ->
    loop_run b max_retries text (attempt :: rest) timeout p x p' log
| Loop_retry attempt rest timeout p timeout' p1 log1 x p' log :
    attempt_run b max_retries text attempt timeout p (Continue timeout') p1 log1 ->
    loop_run b max_retries text rest timeout' p1 x p' log ->
    loop_run b max_retries text (attempt :: rest) timeout p x p' (log1 ++ log).

(** [range(a, a + n)] *)
Definition range_from (a n : nat) : list Z :=
  List.map Z.of_nat (seq a n).


Definition run {A} (m : M A) : A * calls * list event := m calls0.

(** Backends for the examples. *)
Definition refused : exn := Exn RequestException (lit "Connection refused").

Definition timed_out : exn := Exn RequestException (lit "Read timed out").

Definition reply (content : str) : response :=
  Response 200 []
    (inr (VDict [(lit "message", VDict [(lit "role", VStr (lit "assistant"));
                                      (lit "content", VStr content)])])).

(** Nothing listens on the port and [ollama serve] starts but never
    comes up. *)
Definition dead_backend : backend :=
  Backend (fun _ => inl refused) (fun _ => None) (fun _ _ => inl refused).

(** The status route answers, every chat request times out. *)
Definition stalling_backend : backend :=
  Backend (fun _ => inr 200) (fun _ => None) (fun _ _ => inl timed_out).

(** The chat route times out twice, then answers. *)
Definition flaky_backend : backend :=
  Backend (fun _ => inr 200) (fun _ => None)
    (fun n _ => if (n <? 2)%nat then inl timed_out else inr (reply (lit "Better.")))%nat.

(** The chat route answers with a body that has no [message] key. *)
Definition odd_backend : backend :=
  Backend (fun _ => inr 200) (fun _ => None)
    (fun _ _ => inr (Response 200 [] (inr (VDict [(lit "error", VStr (lit "no model"))])))).

End Enhance.

(** ** The document save of [main.py] *)
Module Store.

(** The dict written by [doc_ref.set], lines 113-121. *)
Record document := Document {
  doc_id : str;
  name : str;
  original_content : str;
  enhanced_content : str;
  created_at : str;
  updated_at : str;
  status : str
}.

(** The two collections the function touches:
    [users/{uid}/documents/{id}], and for each existing [users/{uid}]
    its [doc_count] field ([None]: the field is not set). *)
Record firestore := Firestore {
  documents : gmap (str * str) document;
  users : gmap str (option Z)
}.

(** What the function draws from outside: whether
    [firestore.client()] fails, the identifier [.document()] picks,
    the UUID, the two clock readings, and whether the two writes are
    refused by the service. *)
Record env := Env {
  client_error : option exn;
  auto_id : str;
  uuid4 : str;
  now_created : str;
  now_updated : str;
  set_error : option exn;
  update_error : option exn
}.

(** [doc_ref.set(data)] *)
Definition doc_set (E : env) (key : str * str) (data : document)
    (db : firestore) : firestore * option exn :=
  match set_error E with
  | Some e => (db, Some e)
  | None => (Firestore (<[key := data]> (documents db)) (users db), None)
  end.

(** [user_ref.update({"doc_count": firestore.Increment(1)})]: refused
    when the user document does not exist. *)
Definition increment_doc_count (E : env) (user_id : str)
    (db : firestore) : firestore * option exn :=
  match update_error E with
  | Some e => (db, Some e)
  | None =>
      match users db !! user_id with
      | None => (db, Some (Exn OtherException (lit "404 No document to update")))
      | Some count =>
          (Firestore (documents db)
             (<[user_id := Some (default 0 count + 1)]> (users db)), None)
      end
  end.

(** The [try] block, lines 110-126. *)
Definition save_body (E : env) (user_id doc_name original_content
    enhanced_content : str) (db : firestore) : firestore * (exn + str) :=
  match client_error E with
  | Some e => (db, inl e)
  | None =>
      let doc_ref := (user_id, auto_id E) in
      let data :=
        {| doc_id := uuid4 E;
           name := doc_name;
           original_content := slice_to 10000 original_content;
           enhanced_content := slice_to 10000 enhanced_content;
           created_at := now_created E;
           updated_at := now_updated E;
           status := lit "processed" |} in
      match doc_set E doc_ref data db with
      | (db1, Some e) => (db1, inl e)
      | (db1, None) =>
          match increment_doc_count E user_id db1 with
          | (db2, Some e) => (db2, inl e)
          | (db2, None) => (db2, inr (snd doc_ref))
          end
      end
  end.

(** Lines 107-129: the database afterwards, the messages given to
    [st.error], and the identifier returned ([None] for Python's
    [None]) or the exception that escapes. *)
Definition save_to_firestore (E : env) (user_id doc_name original_content
    enhanced_content : str) (db : firestore)
    : firestore * list str * (exn + option str) :=
  match save_body E user_id doc_name original_content enhanced_content db with
  | (db', inr id) => (db', [], inr (Some id))
  | (db', inl e) =>
      if is_Exception e
      then (db', [lit "Failed to save document: " ++ exn_str e], inr None)
      else (db', [], inl e)
  end.

(** A service that accepts everything. *)
Definition fine : env :=
  Env None (lit "Zk3") (lit "6f1c") (lit "2024-05-01T10:00:00")
    (lit "2024-05-01T10:00:01") None None.

Definition one_user : firestore :=
  Firestore ∅ {[ lit "u1" := Some 4 ]}.

End Store.

(** ** The extraction pipeline and the document builder of
       [utils/processor.py] *)
Module Processor.

Abbreviation bytes := (list Byte.byte).

(** The uploaded file: [file.name] and [file.getvalue()]. *)
Record upload := Upload { name : str; data : bytes }.

(** The libraries and the operating system. A PDF page is given by
    what [page.extract_text()] does on it, a rendered image by what
    [pytesseract.image_to_string] does on it. *)
Record libs := Libs {
  decode_utf8 : bytes -> exn + str;
  docx_paragraphs : bytes -> exn + list str;
  named_temporary_file : exn + str;
  tmp_write : bytes -> option exn;
  pdf_pages : bytes -> exn + list (exn + str);
  convert_from_path : bytes -> exn + list (exn + str)
}.

(** Calls into the PDF and OCR libraries, in order. *)
Inductive event :=
| EvExtractText
| EvConvertFromPath (path : str)
| EvImageToString.

(** [open(path, 'rb')] and what is read from it. *)
Definition open_rb (path : str) (fs : gmap str bytes) : exn + bytes :=
  match fs !! path with
  | Some content => inr content
  | None => inl (Exn OSError (lit "No such file or directory"))
  end.

(** [os.unlink(path)] *)
Definition os_unlink (path : str) (fs : gmap str bytes)
    : gmap str bytes * option exn :=
  match fs !! path with
  | Some _ => (delete path fs, None)
  | None => (fs, Some (Exn OSError (lit "No such file or directory")))
  end.

(** Lines 36-37. *)
Fixpoint ocr_loop (images : list (exn + str)) (text : str)
    : list event * (exn + str) :=
  match images with
  | [] => ([], inr text)
  | inl e :: _ => ([EvImageToString], inl e)
  | inr image_text :: rest =>
      let '(log, r) := ocr_loop rest (text ++ image_text ++ [NL]) in
      (EvImageToString :: log, r)
  end.

(** Lines 29-37. *)
Fixpoint pages_loop (L : libs) (tmp_path : str) (fs : gmap str bytes)
    (pages : list (exn + str)) (text : str) : list event * (exn + str) :=
  match pages with
  | [] => ([], inr text)
  | inl e :: _ => ([EvExtractText], inl e)
  | inr page_text :: rest =>
      if truthy page_text then
        let '(log, r) := pages_loop L tmp_path fs rest (text ++ page_text ++ [NL]) in
        (EvExtractText :: log, r)
      else
        match open_rb tmp_path fs with
        | inl e => ([EvExtractText; EvConvertFromPath tmp_path], inl e)
        | inr content =>
            match convert_from_path L content with
            | inl e => ([EvExtractText; EvConvertFromPath tmp_path], inl e)
            | inr images =>
                match ocr_loop images text with
                | (log1, inl e) =>
                    (EvExtractText :: EvConvertFromPath tmp_path :: log1, inl e)
                | (log1, inr text') =>
                    let '(log, r) := pages_loop L tmp_path fs rest text' in
                    (EvExtractText :: EvConvertFromPath tmp_path :: log1 ++ log, r)
                end
            end
        end
  end.

(** Lines 26-38, the inner [try] block. *)
Definition read_pdf (L : libs) (tmp_path : str) (fs : gmap str bytes)
    : list event * (exn + str) :=
  match open_rb tmp_path fs with
  | inl e => ([], inl e)
  | inr content =>
      match pdf_pages L content with
      | inl e => ([], inl e)
      | inr pages => pages_loop L tmp_path fs pages []
      end
  end.

(** Lines 21-40. The temporary file is created empty and kept on
    close ([delete=False]); the [finally] clause runs whatever the
    inner [try] block did, and an exception raised in it replaces
    the one in flight. *)
Definition extract_pdf (L : libs) (file : upload) (fs : gmap str bytes)
    : gmap str bytes * list event * (exn + str) :=
  match named_temporary_file L with
  | inl e => (fs, [], inl e)
  | inr tmp_path =>
      let fs1 := <[tmp_path := []]> fs in
      match tmp_write L (data file) with
      | Some e => (fs1, [], inl e)
      | None =>
          let fs2 := <[tmp_path := data file]> fs1 in
          let '(log, r) := read_pdf L tmp_path fs2 in
          match os_unlink tmp_path fs2 with
          | (fs3, None) => (fs3, log, r)
          | (fs3, Some e) => (fs3, log, inl e)
          end
      end
  end.

(** The exception line 46 raises for a failure described by [d]. *)
Definition ExtractionFailure (d : str) : exn :=
  Exn ValueError (lit "Error processing document: " ++ d).

(** Lines 13-43, the outer [try] block. *)
Definition dispatch (L : libs) (file : upload) (fs : gmap str bytes)
    : gmap str bytes * list event * (exn + str) :=
  if endswith (name file) (lit ".txt") then
    (fs, [], decode_utf8 L (data file))
  else if endswith (name file) (lit ".docx") then
    (fs, [],
     match docx_paragraphs L (data file) with
     | inl e => inl e
     | inr paragraphs => inr (join [NL] paragraphs)
     end)
  else if endswith (name file) (lit ".pdf") then
    extract_pdf L file fs
  else
    (fs, [], inl (Exn ValueError (lit "Unsupported file format: " ++ name file))).

(** Lines 10-46. *)
Definition process_document (L : libs) (file : upload) (fs : gmap str bytes)
    : gmap str bytes * list event * (exn + str) :=
  match dispatch L file fs with
  | (fs', log, inr text) => (fs', log, inr text)
  | (fs', log, inl e) =>
      if is_Exception e
      then (fs', log, inl (ExtractionFailure (exn_str e)))
      else (fs', log, inl e)
  end.

(** The body of a Word document: what [add_heading] and
    [add_paragraph] were called with, in order. *)
Inductive block :=
| Heading (text : str) (level : Z)
| Paragraph (text : str).

Definition add_heading (text : str) (level : Z) (doc : list block) : list block :=
  doc ++ [Heading text level].

(** The Word library, where it can fail: what
    [doc.add_paragraph(text)] raises for a text, [None] when the
    paragraph is added. *)
Record word_lib := WordLib { add_paragraph_error : str -> option exn }.

Definition add_paragraph (W : word_lib) (text : str) (doc : list block)
    : exn + list block :=
  match add_paragraph_error W text with
  | Some e => inl e
  | None => inr (doc ++ [Paragraph text])
  end.

(** The buffer returned: the document saved into it, and the read
    position. *)
Record BytesIO := { saved : list block; position : Z }.

(** Lines 56-58: the loop ends at the first paragraph the library
    refuses. *)
Fixpoint add_lines (W : word_lib) (lines : list str) (doc : list block)
    : exn + list block :=
  match lines with
  | [] => inr doc
  | paragraph :: rest =>
      if truthy (strip paragraph) then
        match add_paragraph W paragraph doc with
        | inl e => inl e
        | inr doc' => add_lines W rest doc'
        end
      else add_lines W rest doc
  end.

(** Lines 48-63: the buffer, or the exception that [add_paragraph]
    raised and nothing catches. *)
Definition create_word_doc (W : word_lib) (content : str) : exn + BytesIO :=
  let doc := [] in
  let doc := add_heading (lit "Enhanced Document") 1 doc in
  match add_lines W (split NL content) doc with
  | inl e => inl e
  | inr doc => inr {| saved := doc; position := 0 |}
  end.

(** What python-docx does with the text of a paragraph. It cuts the
    text at every tab, newline and carriage return, which become a tab
    or a line break of the run, and hands each non-empty piece between
    them to lxml as the text of an element. lxml encodes the piece to
    UTF-8, which fails on a surrogate with a [UnicodeEncodeError] (a
    subclass of [ValueError]), and then refuses it with a [ValueError]
    when it holds a character that XML forbids: a control character
    below U+0020 other than tab, newline and carriage return, U+FFFE
    or U+FFFF. *)
Definition is_break (c : N) : bool :=
  ((c =? 9) || (c =? 10) || (c =? 13))%N.

Definition is_surrogate (c : N) : bool :=
  ((55296 <=? c) && (c <=? 57343))%N.

Definition xml_forbidden (c : N) : bool :=
  ((c <? 9) || (c =? 11) || (c =? 12) || (14 <=? c) && (c <? 32)
   || (c =? 65534) || (c =? 65535))%N.

(** The pieces between the tabs and the line ends. *)
Fixpoint pieces (text : str) : list str :=
  match text with
  | [] => [[]]
  | c :: rest =>
      if is_break c then [] :: pieces rest
      else match pieces rest with
           | [] => [[c]]
           | piece :: more => (c :: piece) :: more
           end
  end.

(** How many surrogates a text starts with. *)
Fixpoint leading_surrogates (text : str) : N :=
  match text with
  | [] => 0
  | c :: rest => if is_surrogate c then N.succ (leading_surrogates rest) else 0
  end%N.

(** The first run of surrogates of a piece: the position where it
    starts, its length and its first character. *)
Fixpoint first_surrogates (piece : str) (position : N) : option (N * N * N) :=
  match piece with
  | [] => None
  | c :: rest =>
      if is_surrogate c
      then Some (position, N.succ (leading_surrogates rest), c)
      else first_surrogates rest (N.succ position)
  end.

Definition decimal (n : N) : str :=
  lit (DecimalString.NilEmpty.string_of_uint (N.to_uint n)).

Definition hexadecimal (n : N) : str :=
  lit (HexadecimalString.NilEmpty.string_of_uint (N.to_hex_uint n)).

(** [str(e)] for the [UnicodeEncodeError] of a run of surrogates. *)
Definition surrogates_not_allowed (start count c : N) : str :=
  if (count =? 1)%N then
    lit "'utf-8' codec can't encode character '\u" ++ hexadecimal c
    ++ lit "' in position " ++ decimal start ++ lit ": surrogates not allowed"
  else
    lit "'utf-8' codec can't encode characters in position " ++ decimal start
    ++ lit "-" ++ decimal (start + count - 1)%N ++ lit ": surrogates not allowed".

Definition not_xml_compatible : str :=
  lit "All strings must be XML compatible: Unicode or ASCII, no NULL bytes or control characters".

(** What lxml raises for one piece. *)
Definition piece_error (piece : str) : option exn :=
  match first_surrogates piece 0 with
  | Some (start, count, c) =>
      Some (Exn ValueError (surrogates_not_allowed start count c))
  | None =>
      if existsb xml_forbidden piece
      then Some (Exn ValueError not_xml_compatible)
      else None
  end.

(** The pieces are written in order: the first failure is raised. *)
Fixpoint first_piece_error (texts : list str) : option exn :=
  match texts with
  | [] => None
  | piece :: more =>
      match piece_error piece with
      | Some e => Some e
      | None => first_piece_error more
      end
  end.

Definition python_docx : word_lib :=
  WordLib (fun text => first_piece_error (pieces text)).

(** What one run of the OCR fallback appends: the text of every
    rendered page of the document, each followed by a newline. *)
Definition full_ocr (ocr_texts : list str) : str :=
  concat (List.map (fun image_text => image_text ++ [NL]) ocr_texts).

(** What one page contributes to the text: its own text layer when
    it has one, the OCR of the whole document when it has none. *)
Definition page_segment (ocr_texts : list str) (page_text : str) : str :=
  if truthy page_text then page_text ++ [NL] else full_ocr ocr_texts.

(** The library calls one page causes when none of them fails. *)
Definition walk_log (tmp_path : str) (images : nat) (page_text : str) : list event :=
  if truthy page_text then [EvExtractText]
  else EvExtractText :: EvConvertFromPath tmp_path :: repeat EvImageToString images.

Definition is_convert (ev : event) : bool :=
  match ev with EvConvertFromPath _ => true | _ => false end.

Definition is_image_to_string (ev : event) : bool :=
  match ev with EvImageToString => true | _ => false end.

(** Libraries for the examples. *)
Definition no_such_lib : exn := Exn OtherException (lit "not used").

Definition disk_full : exn := Exn OSError (lit "No space left on device").

(** A three-page PDF: a text page between two scanned pages; written
    to [/tmp/tmpa1.pdf]; OCR reads the three pages. *)
Definition scanned : libs :=
  Libs (fun _ => inl no_such_lib) (fun _ => inl no_such_lib)
    (inr (lit "/tmp/tmpa1.pdf")) (fun _ => None)
    (fun _ => inr [inr []; inr (lit "two"); inr []])
    (fun _ => inr [inr (lit "I"); inr (lit "II"); inr (lit "III")]).

(** The same, on a full disk: the write of the upload fails. *)
Definition full_disk : libs :=
  Libs (fun _ => inl no_such_lib) (fun _ => inl no_such_lib)
    (inr (lit "/tmp/tmpa1.pdf")) (fun _ => Some disk_full)
    (fun _ => inr [inr []; inr (lit "two"); inr []])
    (fun _ => inr [inr (lit "I"); inr (lit "II"); inr (lit "III")]).

(** The same PDF when the parser rejects it. *)
Definition broken_pdf : libs :=
  Libs (fun _ => inl no_such_lib) (fun _ => inl no_such_lib)
    (inr (lit "/tmp/tmpa1.pdf")) (fun _ => None)
    (fun _ => inl (Exn OtherException (lit "EOF marker not found")))
    (fun _ => inr []).

Definition pdf_upload : upload := Upload (lit "scan.pdf") [Byte.x25; Byte.x50].

Definition png_upload : upload := Upload (lit "scan.png") [Byte.x89; Byte.x50].

End Processor.

(** ** Accounts and the session, [utils/auth.py] *)
Module Auth.

(** The exceptions the handlers of [auth.py] tell apart; [Other] is
    any exception of another class. *)
Inductive failure :=
| AuthError (message : str)
| EmailAlreadyExistsError (message : str)
| WeakPasswordError (message : str)
| UserNotFoundError (message : str)
| AttributeError (message : str)
| Other (e : exn).

(** [str(e)] *)
Definition failure_str (f : failure) : str :=
  match f with
  | AuthError m | EmailAlreadyExistsError m | WeakPasswordError m
  | UserNotFoundError m | AttributeError m => m
  | Other e => exn_str e
  end.

(** [isinstance(e, Exception)] *)
Definition is_exception (f : failure) : bool :=
  match f with
  | Other e => is_Exception e
  | _ => true
  end.

(** [auth.UserRecord], as far as the source reads it. *)
Record UserRecord := { uid : str; email : str; display_name : str }.

(** A field of a Firestore document. *)
Inductive field :=
| FStr (s : str)
| FInt (z : Z)
| FTimestamp (t : Z).

(** Firebase Auth, the accounts by e-mail address, and the Firestore
    collection [users], the documents by uid, each a map from field
    name to value. *)
Record state := State {
  accounts : gmap str UserRecord;
  user_docs : gmap str (gmap str field)
}.

(** What the services decide: the uid of a new account, the time the
    server writes for [SERVER_TIMESTAMP], a failure of each remote call
    for a reason of its own, and whether the module
    [firebase_admin.auth] defines the name [WeakPasswordError] that
    line 72 looks up. *)
Record env := Env {
  has_WeakPasswordError : bool;
  new_uid : str;
  server_time : Z;
  create_error : option failure;
  lookup_error : option failure;
  client_error : option failure;
  get_error : option failure;
  set_error : option failure;
  update_error : option failure
}.

(** [auth.create_user(email=, password=, display_name=)] *)
Definition create_user (E : env) (email password display_name : str)
    (st : state) : state * (failure + UserRecord) :=
  match create_error E with
  | Some f => (st, inl f)
  | None =>
      match accounts st !! email with
      | Some _ =>
          (st, inl (EmailAlreadyExistsError
                      (lit "The user with the provided email already exists (EMAIL_EXISTS).")))
      | None =>
          let user := {| uid := new_uid E; email := email;
                         display_name := display_name |} in
          (State (<[email := user]> (accounts st)) (user_docs st), inr user)
      end
  end.

(** [auth.get_user_by_email(email)] *)
Definition get_user_by_email (E : env) (email : str) (st : state)
    : failure + UserRecord :=
  match lookup_error E with
  | Some f => inl f
  | None =>
      match accounts st !! email with
      | Some user => inr user
      | None =>
          inl (UserNotFoundError
                 (lit "No user record found for the provided email: " ++ email ++ lit "."))
      end
  end.

(** The dict of lines 57-64. *)
Definition user_data (E : env) (user : UserRecord) (email username : str)
    : gmap str field :=
  list_to_map
    [ (lit "uid", FStr (uid user));
      (lit "email", FStr email);
      (lit "username", FStr username);
      (lit "created_at", FTimestamp (server_time E));
      (lit "last_login", FTimestamp (server_time E));
      (lit "doc_count", FInt 0) ].

(** The [try] block of [firebase_signup], lines 45-68. *)
Definition signup_body (E : env) (email password username : str) (st : state)
    : state * (failure + UserRecord) :=
  if negb (truthy email && truthy password && truthy username) then
    (st, inl (AuthError (lit "All fields are required")))
  else if Z.of_nat (length password) <? 6 then
    (st, inl (AuthError (lit "Password must be at least 6 characters")))
  else
    match create_user E email password username st with
    | (st1, inl f) => (st1, inl f)
    | (st1, inr user) =>
        match client_error E with
        | Some f => (st1, inl f)
        | None =>
            match set_error E with
            | Some f => (st1, inl f)
            | None =>
                (State (accounts st1)
                   (<[uid user := user_data E user email username]> (user_docs st1)),
                 inr user)
            end
        end
    end.

(** The [except] clauses of [firebase_signup], lines 70-75, tried in
    order; the second one first evaluates [auth.WeakPasswordError]. *)
Definition signup_handlers (E : env) (f : failure) : failure :=
  match f with
  | EmailAlreadyExistsError _ => AuthError (lit "Email already in use")
  | _ =>
      if has_WeakPasswordError E then
        match f with
        | WeakPasswordError _ =>
            AuthError (lit "Password should be at least 6 characters")
        | _ =>
            if is_exception f
            then AuthError (lit "Registration failed: " ++ failure_str f)
            else f
        end
      else
        AttributeError
          (lit "module 'firebase_admin.auth' has no attribute 'WeakPasswordError'")
  end.

(** Lines 42-75. *)
Definition firebase_signup (E : env) (email password username : str)
    (st : state) : state * (failure + UserRecord) :=
  match signup_body E email password username st with
  | (st', inr user) => (st', inr user)
  | (st', inl f) => (st', inl (signup_handlers E f))
  end.

(** The [try] block of [firebase_login], lines 80-94. *)
Definition login_body (E : env) (email password : str) (st : state)
    : state * (failure + UserRecord) :=
  if negb (truthy email) || negb (truthy password) then
    (st, inl (AuthError (lit "Email and password are required")))
  else
    match get_user_by_email E email st with
    | inl f => (st, inl f)
    | inr user =>
        match client_error E with
        | Some f => (st, inl f)
        | None =>
            match get_error E with
            | Some f => (st, inl f)
            | None =>
                match user_docs st !! uid user with
                | None =>
                    (st, inl (AuthError (lit "User account not properly registered")))
                | Some doc =>
                    match update_error E with
                    | Some f => (st, inl f)
                    | None =>
                        (State (accounts st)
                           (<[uid user :=
                                <[lit "last_login" := FTimestamp (server_time E)]> doc]>
                              (user_docs st)),
                         inr user)
                    end
                end
            end
        end
    end.

(** The [except] clauses of [firebase_login], lines 96-99. *)
Definition login_handlers (f : failure) : failure :=
  match f with
  | UserNotFoundError _ => AuthError (lit "Invalid email or password")
  | _ =>
      if is_exception f
      then AuthError (lit "Login error: " ++ failure_str f)
      else f
  end.

(** Lines 77-99. *)
Definition firebase_login (E : env) (email password : str) (st : state)
    : state * (failure + UserRecord) :=
  match login_body E email password st with
  | (st', inr user) => (st', inr user)
  | (st', inl f) => (st', inl (login_handlers f))
  end.

(** A value kept in [st.session_state]. *)
Inductive session_value :=
| SUser (user : UserRecord)
| SValue (v : value).

(** Lines 101-103. *)
Definition is_authenticated (session : gmap str session_value) : bool :=
  match session !! lit "user" with
  | Some (SUser _) => true
  | _ => false
  end.

(** [if key in st.session_state: del st.session_state[key]] *)
Definition del_if_present (key : str) (session : gmap str session_value)
    : gmap str session_value :=
  match session !! key with
  | Some _ => delete key session
  | None => session
  end.

(** Lines 109-117: the session when [st.rerun()] is reached. *)
Definition logout_user (session : gmap str session_value)
    : gmap str session_value :=
  let session := del_if_present (lit "user") session in
  let session := del_if_present (lit "enhanced_text") session in
  let session := del_if_present (lit "last_doc_id") session in
  session.

(** Services on which nothing fails, without and with the name
    [WeakPasswordError]. *)
Definition service : env :=
  Env false (lit "uid-7") 1714557600 None None None None None None.

Definition service_with_name : env :=
  Env true (lit "uid-7") 1714557600 None None None None None None.

(** The same service when Firestore refuses the write of the user
    document. *)
Definition firestore_down : env :=
  Env true (lit "uid-7") 1714557600 None None None None
    (Some (Other (Exn OtherException (lit "503 unavailable")))) None.

Definition nobody : state := State ∅ ∅.

End Auth.

(** ** Measures on the log of an enhancement call *)
Module Log.
Import Enhance.

(** The time spent in [time.sleep]. *)
Fixpoint total_sleep (log : list event) : Q :=
  match log with
  | [] => 0
  | EvSleep d :: rest => d + total_sleep rest
  | _ :: rest => total_sleep rest
  end.

(** The messages given to [st.error]. *)
Fixpoint diagnostics (log : list event) : list str :=
  match log with
  | [] => []
  | EvStError m :: rest => m :: diagnostics rest
  | _ :: rest => diagnostics rest
  end.

(** The longest a run of [n] attempts that starts with the timeout
    [t] can sleep: 8 seconds in each probe, and half the timeout after
    each attempt but the last. *)
Fixpoint sleep_budget (t : Z) (n : nat) : Q :=
  match n with
  | O => 0
  | S n' =>
      match n' with
      | O => 8
      | S _ => 8 + inject_Z t * (1 # 2) + sleep_budget (t * 2) n'
      end
  end.

End Log.

(** ** Further libraries and uploads for the examples *)
Module Cases.
Import Processor.

(** A PDF whose second page makes [extract_text] raise. *)
Definition bad_second_page : libs :=
  Libs (fun _ => inl no_such_lib) (fun _ => inl no_such_lib)
    (inr (lit "/tmp/tmpa1.pdf")) (fun _ => None)
    (fun _ => inr [inr (lit "one");
                   inl (Exn OtherException (lit "bad page"));
                   inr (lit "three")])
    (fun _ => inr []).

(** A Word file of three paragraphs, the second one blank. *)
Definition three_paragraphs : libs :=
  Libs (fun _ => inl no_such_lib)
    (fun _ => inr [lit "Title"; lit "  "; lit "Body text"])
    (inl no_such_lib) (fun _ => None)
    (fun _ => inl no_such_lib) (fun _ => inl no_such_lib).

Definition docx_upload : upload := Upload (lit "notes.docx") [Byte.x50; Byte.x4b].

(** The status route answers, and the chat route answers every
    request with status 200 and a body that is not JSON:
    [response.json()] raises [requests.exceptions.JSONDecodeError],
    which derives from [RequestException] (requests 2.27 and later). *)
Definition garbled_backend : Enhance.backend :=
  Enhance.Backend (fun _ => inr 200) (fun _ => None)
    (fun _ _ =>
       inr (Enhance.Response 200 []
              (inl (Exn RequestException
                      (lit "Expecting value: line 1 column 1 (char 0)"))))).

(** An account with its document, and the same account without it. *)
Definition alice : Auth.UserRecord :=
  {| Auth.uid := lit "uid-1"; Auth.email := lit "a@x.org";
     Auth.display_name := lit "Alice" |}.

Definition registered : Auth.state :=
  Auth.State {[ lit "a@x.org" := alice ]}
    {[ lit "uid-1" := Auth.user_data Auth.service alice (lit "a@x.org") (lit "Alice") ]}.

Definition orphaned : Auth.state :=
  Auth.State {[ lit "a@x.org" := alice ]} ∅.

(** A session after a login and an enhancement. *)
Definition busy_session : gmap str Auth.session_value :=
  {[ lit "user" := Auth.SUser alice;
     lit "enhanced_text" := Auth.SValue (VStr (lit "Better."));
     lit "theme" := Auth.SValue (VStr (lit "dark")) ]}.

End Cases.

(** * Properties *)

(** ** Strings *)
Module PyFacts.

Lemma lstrip_nil (s : str) :
  lstrip s = [] <-> forallb isspace s = true.
Proof.
  induction s as [|c s IH]; simpl.
  - split; reflexivity.
  - destruct (isspace c); simpl.
    + exact IH.
    + split; discriminate.
Qed.

Lemma forallb_rev (f : N -> bool) (s : str) :
  forallb f (rev s) = forallb f s.
Proof.
  induction s as [|c s IH]; simpl.
  - reflexivity.
  - rewrite forallb_app, IH. simpl. rewrite andb_true_r. apply andb_comm.
Qed.

Lemma forallb_lstrip (s : str) :
  forallb isspace (lstrip s) = forallb isspace s.
Proof.
  induction s as [|c s IH]; simpl.
  - reflexivity.
  - destruct (isspace c) eqn:E; simpl.
    + exact IH.
    + rewrite E. reflexivity.
Qed.

(** [if s.strip():] holds exactly when [s] has a character that is
    not white space. *)
Lemma strip_truthy (s : str) :
  truthy (strip s) = negb (forallb isspace s).
Proof.
  unfold strip.
  destruct (forallb isspace s) eqn:E; simpl.
  - apply lstrip_nil in E. rewrite E. reflexivity.
  - destruct (rev (lstrip (rev (lstrip s)))) as [|c r] eqn:R.
    + exfalso.
      apply (f_equal (@rev N)) in R. rewrite rev_involutive in R. simpl in R.
      apply lstrip_nil in R.
      rewrite forallb_rev, forallb_lstrip in R. congruence.
    + reflexivity.
Qed.

Lemma split_not_nil (sep : N) (s : str) : split sep s <> [].
Proof.
  destruct s as [|c s]; simpl.
  - discriminate.
  - destruct (N.eqb c sep); [discriminate|].
    destruct (split sep s); discriminate.
Qed.

(** Joining the pieces with the separator gives the string back. *)
Lemma join_split (sep : N) (s : str) : join [sep] (split sep s) = s.
Proof.
  induction s as [|c s IH]; simpl.
  - reflexivity.
  - destruct (N.eqb c sep) eqn:E.
    + apply N.eqb_eq in E. subst c.
      destruct (split sep s) as [|piece pieces] eqn:S.
      * exfalso. exact (split_not_nil _ _ S).
      * change (join [sep] ([] :: piece :: pieces))
          with ([] ++ [sep] ++ join [sep] (piece :: pieces)).
        rewrite IH. reflexivity.
    + destruct (split sep s) as [|piece pieces] eqn:S.
      * exfalso. exact (split_not_nil _ _ S).
      * rewrite <- IH. destruct pieces; reflexivity.
Qed.

(** No piece contains the separator. *)
Lemma split_no_sep (sep : N) (s : str) :
  Forall (fun piece => ~ List.In sep piece) (split sep s).
Proof.
  induction s as [|c s IH]; simpl.
  - constructor; [intros []|constructor].
  - destruct (N.eqb c sep) eqn:E.
    + constructor; [intros []|exact IH].
    + destruct (split sep s) as [|piece pieces].
      * constructor; [|constructor].
        intros [H|[]]. subst c. rewrite N.eqb_refl in E. discriminate.
      * inversion IH as [|? ? Hp Hps]; subst.
        constructor; [|exact Hps].
        intros [H|H]; [|exact (Hp H)].
        subst c. rewrite N.eqb_refl in E. discriminate.
Qed.

(** A name that ends in [.pdf] ends neither in [.txt] nor in
    [.docx]. *)
Lemma pdf_suffix_only (n : str) :
  endswith n (lit ".pdf") = true ->
  endswith n (lit ".txt") = false /\ endswith n (lit ".docx") = false.
Proof.
  unfold endswith.
  change (rev (lit ".pdf")) with (102%N :: rev (lit ".pd")).
  change (rev (lit ".txt")) with (116%N :: rev (lit ".tx")).
  change (rev (lit ".docx")) with (120%N :: rev (lit ".doc")).
  destruct (rev n) as [|c r]; [intros H; discriminate H|].
  cbn [startswith].
  destruct (N.eqb_spec 102 c) as [<-|]; [|intros H; discriminate H].
  intros _. split; reflexivity.
Qed.

End PyFacts.

(** ** The extraction pipeline and the document builder *)
Module ProcessorFacts.
Import Processor PyFacts.

Lemma dispatch_unsupported (L : libs) (file : upload) (fs : gmap str bytes) :
  endswith (name file) (lit ".txt") = false ->
  endswith (name file) (lit ".docx") = false ->
  endswith (name file) (lit ".pdf") = false ->
  dispatch L file fs =
    (fs, [], inl (Exn ValueError (lit "Unsupported file format: " ++ name file))).
Proof.
  intros Htxt Hdocx Hpdf. unfold dispatch.
  rewrite Htxt, Hdocx, Hpdf. reflexivity.
Qed.

Lemma dispatch_pdf (L : libs) (file : upload) (fs : gmap str bytes) :
  endswith (name file) (lit ".pdf") = true ->
  dispatch L file fs = extract_pdf L file fs.
Proof.
  intros Hpdf. destruct (pdf_suffix_only _ Hpdf) as [Htxt Hdocx].
  unfold dispatch. rewrite Htxt, Hdocx, Hpdf. reflexivity.
Qed.

(** C5, as the code has it: a file whose name ends in none of [.txt],
    [.docx], [.pdf] makes [process_document] raise a [ValueError]; it is
    the uniform error of line 46, built from the description
    "Unsupported file format: " followed by the whole file name; no
    file is created and no library is called. *)
Theorem unsupported_suffix_raises_uniform_error
    (L : libs) (file : upload) (fs : gmap str bytes) :
  endswith (name file) (lit ".txt") = false ->
  endswith (name file) (lit ".docx") = false ->
  endswith (name file) (lit ".pdf") = false ->
  process_document L file fs =
    (fs, [], inl (ExtractionFailure (lit "Unsupported file format: " ++ name file)))
  /\ exn_cls (ExtractionFailure (lit "Unsupported file format: " ++ name file))
     = ValueError
  /\ exn_str (ExtractionFailure (lit "Unsupported file format: " ++ name file))
     = lit "Error processing document: Unsupported file format: " ++ name file.
Proof.
  intros Htxt Hdocx Hpdf.
  unfold process_document.
  rewrite (dispatch_unsupported L file fs Htxt Hdocx Hpdf).
  repeat split.
Qed.

Lemma unsupported_suffix_raises_uniform_error_png :
  process_document scanned png_upload ∅ =
    (∅, [], inl (ExtractionFailure (lit "Unsupported file format: scan.png")))
  /\ exn_cls (ExtractionFailure (lit "Unsupported file format: scan.png")) = ValueError
  /\ exn_str (ExtractionFailure (lit "Unsupported file format: scan.png"))
     = lit "Error processing document: Unsupported file format: scan.png".
Proof.
  apply (unsupported_suffix_raises_uniform_error scanned png_upload ∅);
    reflexivity.
Defined.

(** C5, as the spec words it, fails on [scan.png]: the error raised is
    not of a kind of its own, it is the uniform failure of line 46. *)
Lemma unsupported_suffix_error_not_distinct :
  ~ (exists e,
        snd (process_document scanned png_upload ∅) = inl e
        /\ forall d, e <> ExtractionFailure d).
Proof.
  intros (e & He & Hdistinct).
  vm_compute in He. injection He as <-.
  apply (Hdistinct (lit "Unsupported file format: scan.png")).
  reflexivity.
Qed.

(** The same error comes out of a [.docx] upload whose parser fails
    with that description. *)
Example docx_failure_same_error :
  snd (process_document
         (Libs (fun _ => inl no_such_lib)
               (fun _ => inl (Exn OtherException (lit "Unsupported file format: scan.png")))
               (inl no_such_lib) (fun _ => None)
               (fun _ => inl no_such_lib) (fun _ => inl no_such_lib))
         (Upload (lit "notes.docx") []) ∅)
  = snd (process_document scanned png_upload ∅).
Proof. reflexivity. Qed.

(** Once the upload has been written, the temporary file is gone when
    [extract_pdf] returns, whatever the parsing did. *)
Lemma extract_pdf_unlinks (L : libs) (file : upload) (fs : gmap str bytes)
    (tmp_path : str) :
  named_temporary_file L = inr tmp_path ->
  tmp_write L (data file) = None ->
  (extract_pdf L file fs).1.1 !! tmp_path = None.
Proof.
  intros Htmp Hwrite. unfold extract_pdf. rewrite Htmp, Hwrite.
  destruct (read_pdf L tmp_path _) as [log r].
  unfold os_unlink. rewrite lookup_insert_eq. simpl.
  apply lookup_delete_eq.
Qed.

(** C6 fails when the write of the upload into the temporary file
    raises: for a PDF upload, [process_document] then raises the
    uniform error and the temporary file, created empty, still exists
    when the call returns. *)
Theorem tmp_file_left_when_write_fails
    (L : libs) (file : upload) (fs : gmap str bytes) (tmp_path : str) (e : exn) :
  endswith (name file) (lit ".pdf") = true ->
  named_temporary_file L = inr tmp_path ->
  tmp_write L (data file) = Some e ->
  is_Exception e = true ->
  exists fs',
    process_document L file fs = (fs', [], inl (ExtractionFailure (exn_str e)))
    /\ fs' !! tmp_path = Some [].
Proof.
  intros Hpdf Htmp Hwrite Hexn.
  exists (<[tmp_path := []]> fs). split.
  - unfold process_document. rewrite (dispatch_pdf L file fs Hpdf).
    unfold extract_pdf. rewrite Htmp, Hwrite, Hexn. reflexivity.
  - apply lookup_insert_eq.
Qed.

Lemma tmp_file_left_on_full_disk :
  exists fs',
    process_document full_disk pdf_upload ∅
    = (fs', [], inl (ExtractionFailure (exn_str disk_full)))
    /\ fs' !! lit "/tmp/tmpa1.pdf" = Some [].
Proof.
  apply (tmp_file_left_when_write_fails full_disk pdf_upload ∅
           (lit "/tmp/tmpa1.pdf") disk_full); reflexivity.
Defined.

(** On the other exit paths of a PDF extraction the file is removed. *)
Lemma tmp_file_removed_after_write
    (L : libs) (file : upload) (fs : gmap str bytes) (tmp_path : str) :
  endswith (name file) (lit ".pdf") = true ->
  named_temporary_file L = inr tmp_path ->
  tmp_write L (data file) = None ->
  (process_document L file fs).1.1 !! tmp_path = None.
Proof.
  intros Hpdf Htmp Hwrite.
  pose proof (extract_pdf_unlinks L file fs tmp_path Htmp Hwrite) as H.
  unfold process_document. rewrite (dispatch_pdf L file fs Hpdf).
  destruct (extract_pdf L file fs) as [[fs' log] [e|text]]; simpl in *.
  - destruct (is_Exception e); exact H.
  - exact H.
Qed.

(** The inner loop of the fallback, when every image is read. *)
Lemma ocr_loop_ok (ocr_texts : list str) (text : str) :
  ocr_loop (List.map inr ocr_texts) text =
    (repeat EvImageToString (length ocr_texts), inr (text ++ full_ocr ocr_texts)).
Proof.
  revert text. induction ocr_texts as [|t ts IH]; intros text; simpl.
  - unfold full_ocr. simpl. rewrite app_nil_r. reflexivity.
  - rewrite IH. unfold full_ocr. simpl.
    rewrite <- !app_assoc. reflexivity.
Qed.

Lemma pages_loop_ok (L : libs) (tmp_path : str) (fs : gmap str bytes)
    (content : bytes) (ocr_texts page_texts : list str) (text : str) :
  fs !! tmp_path = Some content ->
  convert_from_path L content = inr (List.map inr ocr_texts) ->
  pages_loop L tmp_path fs (List.map inr page_texts) text =
    (concat (List.map (walk_log tmp_path (length ocr_texts)) page_texts),
     inr (text ++ concat (List.map (page_segment ocr_texts) page_texts))).
Proof.
  intros Hfile Hconvert. revert text.
  induction page_texts as [|pt pts IH]; intros text; simpl.
  - rewrite app_nil_r. reflexivity.
  - unfold page_segment at 1, walk_log at 1.
    destruct (truthy pt) eqn:Ept.
    + rewrite IH. rewrite <- !app_assoc. reflexivity.
    + unfold open_rb. rewrite Hfile, Hconvert, ocr_loop_ok, IH.
      rewrite <- !app_assoc. reflexivity.
Qed.

Lemma count_repeat_image (n : nat) :
  length (List.filter is_image_to_string (repeat EvImageToString n)) = n
  /\ length (List.filter is_convert (repeat EvImageToString n)) = 0%nat.
Proof.
  induction n as [|n [IH1 IH2]]; simpl; [split; reflexivity|].
  rewrite IH1, IH2. split; reflexivity.
Qed.

Lemma walk_log_counts (tmp_path : str) (images : nat) (page_texts : list str) :
  let log := concat (List.map (walk_log tmp_path images) page_texts) in
  let k := length (List.filter (fun t => negb (truthy t)) page_texts) in
  length (List.filter is_convert log) = k
  /\ length (List.filter is_image_to_string log) = (k * images)%nat.
Proof.
  induction page_texts as [|pt pts [IH1 IH2]]; simpl; [split; reflexivity|].
  rewrite !List.filter_app, !length_app. simpl in IH1, IH2. rewrite IH1, IH2.
  unfold walk_log. destruct (truthy pt); simpl.
  - split; reflexivity.
  - destruct (count_repeat_image images) as [H1 H2]. rewrite H1, H2.
    split; reflexivity.
Qed.

(** C9: for a PDF that is written and parsed without a failure, the
    text returned is, page after page, the text layer of the page and
    a newline when the page has one, and otherwise the OCR text of
    every page of the document; with [k] pages without a text layer
    the document is rendered [k] times and [image_to_string] is called
    [k] times on each of its pages. *)
Theorem ocr_fallback_reads_whole_document_per_textless_page
    (L : libs) (file : upload) (fs : gmap str bytes) (tmp_path : str)
    (page_texts ocr_texts : list str) :
  endswith (name file) (lit ".pdf") = true ->
  named_temporary_file L = inr tmp_path ->
  tmp_write L (data file) = None ->
  pdf_pages L (data file) = inr (List.map inr page_texts) ->
  convert_from_path L (data file) = inr (List.map inr ocr_texts) ->
  let k := length (List.filter (fun t => negb (truthy t)) page_texts) in
  exists fs' log,
    process_document L file fs =
      (fs', log, inr (concat (List.map (page_segment ocr_texts) page_texts)))
    /\ (forall t, truthy t = false -> page_segment ocr_texts t = full_ocr ocr_texts)
    /\ length (List.filter is_convert log) = k
    /\ length (List.filter is_image_to_string log) = (k * length ocr_texts)%nat.
Proof.
  intros Hpdf Htmp Hwrite Hpages Hconvert k.
  unfold process_document. rewrite (dispatch_pdf L file fs Hpdf).
  unfold extract_pdf. rewrite Htmp, Hwrite.
  unfold read_pdf, open_rb, os_unlink. rewrite !lookup_insert_eq, Hpages.
  rewrite (pages_loop_ok L tmp_path _ (data file) ocr_texts page_texts []);
    [|apply lookup_insert_eq|exact Hconvert].
  simpl. eexists _, _. split; [reflexivity|]. split.
  - intros t Ht. unfold page_segment. rewrite Ht. reflexivity.
  - apply walk_log_counts.
Qed.

Lemma ocr_fallback_twice_on_two_scanned_pages :
  exists fs' log,
    process_document scanned pdf_upload ∅ =
      (fs', log,
       inr (concat (List.map (page_segment [lit "I"; lit "II"; lit "III"])
                      [[]; lit "two"; []])))
    /\ (forall t, truthy t = false ->
        page_segment [lit "I"; lit "II"; lit "III"] t
        = full_ocr [lit "I"; lit "II"; lit "III"])
    /\ length (List.filter is_convert log) = 2%nat
    /\ length (List.filter is_image_to_string log) = 6%nat.
Proof.
  apply (ocr_fallback_reads_whole_document_per_textless_page
           scanned pdf_upload ∅ (lit "/tmp/tmpa1.pdf")
           [[]; lit "two"; []] [lit "I"; lit "II"; lit "III"]);
    reflexivity.
Defined.

(** The loop of lines 56-58 appends the kept lines, in order, as long
    as the library takes them. *)
Lemma add_lines_accepted (W : word_lib) (lines : list str) (doc : list block) :
  (forall line,
     List.In line (List.filter (fun line => negb (forallb isspace line)) lines) ->
     add_paragraph_error W line = None) ->
  add_lines W lines doc
  = inr (doc ++ List.map Paragraph
                  (List.filter (fun line => negb (forallb isspace line)) lines)).
Proof.
  revert doc. induction lines as [|line lines IH]; intros doc Hok; cbn [add_lines].
  - cbn. rewrite app_nil_r. reflexivity.
  - rewrite strip_truthy. cbn [List.filter] in Hok |- *.
    destruct (forallb isspace line); cbn [negb] in Hok |- *.
    + apply IH. exact Hok.
    + unfold add_paragraph. rewrite (Hok line (or_introl eq_refl)).
      rewrite IH by (intros l Hl; apply Hok; right; exact Hl).
      cbn [List.map]. rewrite <- app_assoc. reflexivity.
Qed.

(** It ends with the exception of the first kept line that the
    library refuses. *)
Lemma add_lines_refused (W : word_lib) (lines : list str) :
  forall (doc : list block) (before : list str) (line : str)
         (after : list str) (e : exn),
    List.filter (fun line => negb (forallb isspace line)) lines
    = before ++ line :: after ->
    (forall l, List.In l before -> add_paragraph_error W l = None) ->
    add_paragraph_error W line = Some e ->
    add_lines W lines doc = inl e.
Proof.
  induction lines as [|l lines IH]; intros doc before line after e Hkept Hok Hbad.
  - destruct before; discriminate Hkept.
  - cbn [add_lines]. rewrite strip_truthy. cbn [List.filter] in Hkept.
    destruct (forallb isspace l); cbn [negb] in Hkept |- *.
    + exact (IH doc before line after e Hkept Hok Hbad).
    + unfold add_paragraph. destruct before as [|b before].
      * cbn [app] in Hkept. injection Hkept as -> Hkept.
        rewrite Hbad. reflexivity.
      * cbn [app] in Hkept. injection Hkept as -> Hkept.
        rewrite (Hok b (or_introl eq_refl)).
        apply (IH _ before line after e Hkept);
          [intros x Hx; apply Hok; right; exact Hx|exact Hbad].
Qed.

(** C8, as the code has it: the lines of the input are the pieces
    between its newlines, and the kept ones are those with a character
    other than white space. When the Word library takes every kept
    line, the buffer returned holds the heading "Enhanced Document"
    followed by one paragraph for each kept line, in the order of the
    lines, and is positioned at its start. When it refuses one,
    [create_word_doc] raises what [add_paragraph] raised for the first
    such line and returns no buffer. "Hello\n\nWorld" gives the
    paragraphs "Hello" and "World", the empty string gives the heading
    alone. *)
Theorem create_word_doc_heading_then_nonblank_lines
    (W : word_lib) (content : str) :
  let lines := split NL content in
  let kept := List.filter (fun line => negb (forallb isspace line)) lines in
  join [NL] lines = content
  /\ Forall (fun line => ~ List.In NL line) lines
  /\ ((forall line, List.In line kept -> add_paragraph_error W line = None) ->
      create_word_doc W content =
        inr {| saved := Heading (lit "Enhanced Document") 1
                        :: List.map Paragraph kept;
               position := 0 |})
  /\ (forall before line after e,
        kept = before ++ line :: after ->
        (forall l, List.In l before -> add_paragraph_error W l = None) ->
        add_paragraph_error W line = Some e ->
        create_word_doc W content = inl e)
  /\ create_word_doc python_docx (lit "Hello" ++ [NL; NL] ++ lit "World") =
       inr {| saved := [Heading (lit "Enhanced Document") 1;
                        Paragraph (lit "Hello"); Paragraph (lit "World")];
              position := 0 |}
  /\ create_word_doc W [] =
       inr {| saved := [Heading (lit "Enhanced Document") 1]; position := 0 |}.
Proof.
  intros lines kept. split; [apply join_split|].
  split; [apply split_no_sep|].
  split; [|split; [|split; reflexivity]].
  - intros Hok. unfold create_word_doc. fold lines.
    rewrite (add_lines_accepted W lines _ Hok). reflexivity.
  - intros before line after e Hkept Hok Hbad.
    unfold create_word_doc. fold lines.
    rewrite (add_lines_refused W lines _ before line after e Hkept Hok Hbad).
    reflexivity.
Qed.

Lemma hello_world_gives_two_paragraphs :
  create_word_doc python_docx (lit "Hello" ++ [NL; NL] ++ lit "World") =
    inr {| saved := Heading (lit "Enhanced Document") 1
                    :: List.map Paragraph
                         (List.filter (fun line => negb (forallb isspace line))
                            (split NL (lit "Hello" ++ [NL; NL] ++ lit "World")));
           position := 0 |}.
Proof.
  destruct (create_word_doc_heading_then_nonblank_lines python_docx
              (lit "Hello" ++ [NL; NL] ++ lit "World"))
    as (_ & _ & Haccepted & _).
  apply Haccepted.
  intros line [<-|[<-|[]]]; reflexivity.
Defined.

(** C8, as the spec words it, fails on "a\x00b": the line is not
    blank, python-docx refuses its NUL character, and the call raises
    instead of returning a document. *)
Lemma nul_character_makes_create_word_doc_raise :
  ~ (exists buffer,
       create_word_doc python_docx (lit "a" ++ [0%N] ++ lit "b") = inr buffer).
Proof.
  intros [buffer H]. vm_compute in H. discriminate H.
Qed.

(** What is raised there: lxml's [ValueError]. *)
Example nul_character_error :
  create_word_doc python_docx (lit "a" ++ [0%N] ++ lit "b")
  = inl (Exn ValueError not_xml_compatible).
Proof. reflexivity. Qed.

End ProcessorFacts.

(** ** The document save *)
Module StoreFacts.
Import Store.

Lemma slice_to_length (n : Z) (s : str) :
  0 <= n ->
  Z.of_nat (length (slice_to n s)) = Z.min n (Z.of_nat (length s)).
Proof.
  intros Hn. unfold slice_to. rewrite length_firstn. lia.
Qed.

Lemma slice_to_short (n : Z) (s : str) :
  Z.of_nat (length s) <= n -> slice_to n s = s.
Proof.
  intros Hn. unfold slice_to. apply firstn_all2. lia.
Qed.

(** C7: when [save_to_firestore] returns an identifier, the record
    stored under it for the user holds the first 10,000 characters of
    the original and of the enhanced text (the whole text when it is
    not longer, exactly 10,000 characters when it is) and the status
    "processed", and no error was reported. *)
Theorem saved_record_truncated_and_processed
    (E : env) (user_id doc_name original enhanced : str)
    (db db' : firestore) (errors : list str) (id : str) :
  save_to_firestore E user_id doc_name original enhanced db
    = (db', errors, inr (Some id)) ->
  exists record,
    documents db' !! (user_id, id) = Some record
    /\ original_content record = firstn (Z.to_nat 10000) original
    /\ enhanced_content record = firstn (Z.to_nat 10000) enhanced
    /\ Z.of_nat (length (original_content record))
       = Z.min 10000 (Z.of_nat (length original))
    /\ Z.of_nat (length (enhanced_content record))
       = Z.min 10000 (Z.of_nat (length enhanced))
    /\ (Z.of_nat (length original) <= 10000 -> original_content record = original)
    /\ (Z.of_nat (length enhanced) <= 10000 -> enhanced_content record = enhanced)
    /\ status record = lit "processed"
    /\ name record = doc_name
    /\ errors = [].
Proof.
  unfold save_to_firestore, save_body, doc_set, increment_doc_count.
  destruct (client_error E) as [e|].
  { destruct (is_Exception e); intros H; discriminate H. }
  destruct (set_error E) as [e|].
  { destruct (is_Exception e); intros H; discriminate H. }
  destruct (update_error E) as [e|].
  { destruct (is_Exception e); intros H; discriminate H. }
  cbn [users documents].
  destruct (users db !! user_id) as [count|].
  2:{ simpl. intros H; discriminate H. }
  cbn [snd]. intros H. injection H as <- <- <-.
  eexists. split; [cbn [documents]; apply lookup_insert_eq|].
  cbn [original_content enhanced_content status name].
  repeat split.
  - apply slice_to_length. lia.
  - apply slice_to_length. lia.
  - apply slice_to_short.
  - apply slice_to_short.
Qed.

Lemma saved_record_of_20000_characters :
  exists record,
    documents (save_to_firestore fine (lit "u1") (lit "report.pdf")
                 (repeat 65%N (Z.to_nat 20000)) (repeat 66%N (Z.to_nat 20000))
                 one_user).1.1
      !! (lit "u1", lit "Zk3") = Some record
    /\ original_content record
       = firstn (Z.to_nat 10000) (repeat 65%N (Z.to_nat 20000))
    /\ enhanced_content record
       = firstn (Z.to_nat 10000) (repeat 66%N (Z.to_nat 20000))
    /\ Z.of_nat (length (original_content record))
       = Z.min 10000 (Z.of_nat (length (repeat 65%N (Z.to_nat 20000))))
    /\ Z.of_nat (length (enhanced_content record))
       = Z.min 10000 (Z.of_nat (length (repeat 66%N (Z.to_nat 20000))))
    /\ (Z.of_nat (length (repeat 65%N (Z.to_nat 20000))) <= 10000 ->
        original_content record = repeat 65%N (Z.to_nat 20000))
    /\ (Z.of_nat (length (repeat 66%N (Z.to_nat 20000))) <= 10000 ->
        enhanced_content record = repeat 66%N (Z.to_nat 20000))
    /\ status record = lit "processed"
    /\ name record = lit "report.pdf"
    /\ [] = @nil str.
Proof.
  apply (saved_record_truncated_and_processed fine (lit "u1") (lit "report.pdf")
           (repeat 65%N (Z.to_nat 20000)) (repeat 66%N (Z.to_nat 20000))
           one_user _ [] (lit "Zk3")).
  vm_compute. reflexivity.
Defined.

(** The record of the 20,000-character inputs holds 10,000 characters
    in each field. *)
Example saved_record_of_20000_characters_lengths :
  option_map (fun record => (length (original_content record),
                             length (enhanced_content record)))
    ((documents (save_to_firestore fine (lit "u1") (lit "report.pdf")
                   (repeat 65%N (Z.to_nat 20000)) (repeat 66%N (Z.to_nat 20000))
                   one_user).1.1)
       !! (lit "u1", lit "Zk3"))
  = Some (Z.to_nat 10000, Z.to_nat 10000).
Proof. vm_compute. reflexivity. Qed.

End StoreFacts.

(** ** The enhancement client *)
Module EnhanceFacts.
Import Enhance.

Lemma posts_app (l1 l2 : list event) : posts (l1 ++ l2) = posts l1 ++ posts l2.
Proof.
  induction l1 as [|ev l1 IH]; simpl; [reflexivity|].
  destruct ev; simpl; rewrite ?IH; reflexivity.
Qed.

Lemma posts_probe (probe : list event) :
  forallb is_probe_event probe = true -> posts probe = [].
Proof.
  induction probe as [|ev probe IH]; simpl; [reflexivity|].
  intros H. apply andb_true_iff in H as [Hev H].
  destruct ev; simpl in *; try discriminate; exact (IH H).
Qed.

Lemma post_timeouts_posts (log : list event) :
  post_timeouts log = List.map req_timeout (posts log).
Proof.
  induction log as [|ev log IH]; simpl; [reflexivity|].
  destruct ev; simpl; rewrite ?IH; reflexivity.
Qed.

Lemma backoff_sleeps_probe (probe log : list event) :
  forallb is_probe_event probe = true ->
  backoff_sleeps (probe ++ log) = backoff_sleeps log.
Proof.
  induction probe as [|ev probe IH]; simpl; [reflexivity|].
  intros H. apply andb_true_iff in H as [Hev H].
  destruct ev; simpl in *; try discriminate; exact (IH H).
Qed.

Lemma nth_error_lt {A : Type} (l : list A) (i : nat) (x : A) :
  nth_error l i = Some x -> (i < length l)%nat.
Proof. intros H. apply nth_error_Some. congruence. Qed.

Lemma doubling_length (t : Z) (k : nat) : length (doubling t k) = k.
Proof.
  revert t. induction k as [|k IH]; intros t; simpl; [reflexivity|].
  rewrite IH. reflexivity.
Qed.

Lemma doubling_nth (k i : nat) (t : Z) :
  (i < k)%nat -> nth_error (doubling t k) i = Some (t * 2 ^ Z.of_nat i).
Proof.
  revert i t. induction k as [|k IH]; intros i t Hi; [lia|].
  destruct i as [|i]; simpl.
  - f_equal. lia.
  - rewrite IH by lia. f_equal. unfold TIMEOUT_BACKOFF_FACTOR.
    rewrite Nat2Z.inj_succ, Z.pow_succ_r by lia. lia.
Qed.

Lemma doubling_prefix (t : Z) (k n : nat) :
  (k <= n)%nat -> doubling t k = firstn k (doubling t n).
Proof.
  revert t n. induction k as [|k IH]; intros t n Hk; [reflexivity|].
  destruct n as [|n]; [lia|]. simpl. f_equal. apply IH. lia.
Qed.

Ltac tidy_log :=
  cbn [n_get n_popen n_post];
  rewrite ?app_nil_r, <- ?app_assoc;
  cbn [app].

Section Runs.

Variable b : backend.

(** A probe issues no POST, makes at most two GETs and one launch, and
    answers [True] only if some GET was answered with status 200. *)
Lemma check_ollama_connection_spec (c : calls) :
  exists up c' probe,
    check_ollama_connection b c = (up, c', probe)
    /\ n_post c' = n_post c
    /\ forallb is_probe_event probe = true
    /\ (n_get c' <= n_get c + 2)%nat
    /\ (n_popen c' <= n_popen c + 1)%nat
    /\ (up = true -> exists n, get_tags b n = inr 200).
Proof.
  unfold check_ollama_connection, start_ollama_server, bind, ret,
    requests_get, subprocess_Popen, time_sleep.
  cbn [n_get n_popen n_post].
  destruct (get_tags b (n_get c)) as [e|status] eqn:G1;
    cbn [n_get n_popen n_post].
  - destruct (popen_serve b (n_popen c)) as [e'|] eqn:P;
      cbn [n_get n_popen n_post negb].
    + eexists _, _, _. split; [reflexivity|]. cbn [n_get n_popen n_post].
      repeat split; try lia; try (intros H; discriminate H).
    + destruct (get_tags b (S (n_get c))) as [e2|status2] eqn:G2.
      * eexists _, _, _. split; [reflexivity|]. cbn [n_get n_popen n_post].
        repeat split; try lia; try (intros H; discriminate H).
      * eexists _, _, _. split; [reflexivity|]. cbn [n_get n_popen n_post].
        repeat split; try lia.
        intros H. apply Z.eqb_eq in H. subst status2. eauto.
  - eexists _, _, _. split; [reflexivity|]. cbn [n_get n_popen n_post].
    repeat split; try lia.
    intros H. apply Z.eqb_eq in H. subst status. eauto.
Qed.

(** Every iteration goes one of the six ways of [attempt_run]. *)
Lemma attempt_body_run (max_retries : Z) (text : str) (attempt timeout : Z)
    (c c' : calls) (s : step) (log : list event) :
  attempt_body b max_retries text attempt timeout c = (s, c', log) ->
  attempt_run b max_retries text attempt timeout (n_post c) s (n_post c') log.
Proof.
  unfold attempt_body, try_block, bind.
  destruct (check_ollama_connection_spec c)
    as (up & c1 & probe & Hcheck & Hposts & Hprobe & _).
  rewrite Hcheck. destruct up; cbn [negb].
  - unfold requests_post, ret, time_sleep, st_error.
    cbn [n_get n_popen n_post]. rewrite Hposts.
    destruct (read_response (post_chat b (n_post c) (build_request text timeout)))
      as [e|v] eqn:R.
    + destruct (is_RequestException e) eqn:Req.
      * destruct (attempt =? max_retries - 1) eqn:Last;
          intros H; injection H as <- <- <-; tidy_log.
        -- apply Z.eqb_eq in Last. eapply Attempt_reraise; eassumption.
        -- apply Z.eqb_neq in Last. eapply Attempt_retry; eassumption.
      * destruct (is_Exception e) eqn:Exc;
          intros H; injection H as <- <- <-; tidy_log.
        -- eapply Attempt_degrade; eassumption.
        -- eapply Attempt_propagate; eassumption.
    + intros H. injection H as <- <- <-. tidy_log.
      eapply Attempt_content; eassumption.
  - unfold ret, st_error.
    intros H. injection H as <- <- <-. tidy_log. rewrite Hposts.
    apply Attempt_unavailable. exact Hprobe.
Qed.

(** Every run of the loop is a run of [loop_run]. *)
Lemma retry_loop_run (max_retries : Z) (text : str) (attempts : list Z) :
  forall (timeout : Z) (c c' : calls) (x : exit) (log : list event),
    retry_loop b max_retries text attempts timeout c = (x, c', log) ->
    loop_run b max_retries text attempts timeout (n_post c) x (n_post c') log.
Proof.
  induction attempts as [|attempt rest IH]; intros timeout c c' x log.
  - cbn [retry_loop]. unfold ret. intros H. injection H as <- <- <-.
    apply Loop_exhausted.
  - cbn [retry_loop]. unfold bind.
    destruct (attempt_body b max_retries text attempt timeout c)
      as [[s c1] log1] eqn:B.
    apply attempt_body_run in B.
    destruct s as [x1|timeout'].
    + unfold ret. intros H. injection H as <- <- <-. tidy_log.
      apply Loop_exit. exact B.
    + destruct (retry_loop b max_retries text rest timeout' c1)
        as [[x2 c2] log2] eqn:L.
      intros H. injection H as <- <- <-.
      eapply Loop_retry; [exact B|]. apply IH. exact L.
Qed.

Lemma range_from_S (a n : nat) :
  range_from a (S n) = Z.of_nat a :: range_from (S a) n.
Proof. reflexivity. Qed.

(** The shape of the log of a run over the attempts [a, ..., a+n-1]
    when [a+n] is the bound: [k] POSTs with doubling timeouts, [j]
    sleeps of half the timeout of the POST they follow, one sleep
    after each POST but possibly the last, and none after the final
    attempt. *)
Lemma loop_run_shape (max_retries : Z) (text : str) (n : nat) :
  forall (a : nat) (t : Z) (p p' : nat) (x : exit) (log : list event),
    Z.of_nat (a + n) = max_retries ->
    loop_run b max_retries text (range_from a n) t p x p' log ->
    exists k j,
      (k <= n)%nat
      /\ posts log = List.map (build_request text) (doubling t k)
      /\ p' = (p + k)%nat
      /\ backoff_sleeps log
         = List.map (fun t => inject_Z t * (1 # 2))%Q (doubling t j)
      /\ (j <= k)%nat /\ (k <= S j)%nat /\ (j < n \/ n = 0)%nat.
Proof.
  induction n as [|n IH]; intros a t p p' x log Hmax Hrun.
  - inversion Hrun; subst. exists 0%nat, 0%nat.
    repeat split; try reflexivity; try lia.
  - rewrite range_from_S in Hrun.
    inversion Hrun as [|? ? ? ? ? ? ? Hatt|? ? ? ? ? ? ? ? ? ? Hatt Hrest]; subst.
    + inversion Hatt; subst.
      * exists 0%nat, 0%nat.
        rewrite posts_app, posts_probe, backoff_sleeps_probe by assumption.
        repeat split; try reflexivity; try lia.
      * exists 1%nat, 0%nat.
        rewrite posts_app, posts_probe, backoff_sleeps_probe by assumption.
        repeat split; try reflexivity; try lia.
      * exists 1%nat, 0%nat.
        rewrite posts_app, posts_probe, backoff_sleeps_probe by assumption.
        repeat split; try reflexivity; try lia.
      * exists 1%nat, 0%nat.
        rewrite posts_app, posts_probe, backoff_sleeps_probe by assumption.
        repeat split; try reflexivity; try lia.
      * exists 1%nat, 0%nat.
        rewrite posts_app, posts_probe, backoff_sleeps_probe by assumption.
        repeat split; try reflexivity; try lia.
    + inversion Hatt; subst.
      destruct (IH (S a) _ _ _ _ _ ltac:(lia) Hrest)
        as (k & j & Hk & Hposts & Hp & Hsleeps & Hjk & Hkj & Hjn).
      exists (S k), (S j).
      rewrite <- app_assoc, posts_app, posts_probe, backoff_sleeps_probe
        by assumption.
      cbn [app posts backoff_sleeps doubling List.map]. rewrite Hposts, Hsleeps.
      repeat split; try reflexivity; try lia.
Qed.

Lemma last_probe_then (probe tail : list event) (ev : event) :
  last (probe ++ tail ++ [ev]) = Some ev.
Proof. rewrite app_assoc. apply last_snoc. Qed.

(** The final attempt: when the POST of the last of the attempts
    fails with a transport error, the loop re-raises that error and
    the POST is the last thing the call did. *)
Lemma loop_run_final_failure (max_retries : Z) (text : str) (n : nat) :
  forall (a : nat) (t : Z) (p p' : nat) (x : exit) (log : list event),
    Z.of_nat (a + S n) = max_retries ->
    loop_run b max_retries text (range_from a (S n)) t p x p' log ->
    forall (req : chat_request) (e : exn),
      nth_error (posts log) n = Some req ->
      read_response (post_chat b (p + n) req) = inl e ->
      is_RequestException e = true ->
      x = Reraise e /\ last log = Some (EvPost req)
      /\ length (backoff_sleeps log) = n.
Proof.
  induction n as [|n IH]; intros a t p p' x log Hmax Hrun req e Hnth Hread Hreq;
    rewrite range_from_S in Hrun;
    inversion Hrun as [|? ? ? ? ? ? ? Hatt|? ? ? ? ? ? ? ? ? ? Hatt Hrest]; subst;
    inversion Hatt; subst;
    try (rewrite <- app_assoc in Hnth |- *);
    rewrite posts_app, posts_probe in Hnth by assumption;
    cbn [app posts nth_error] in Hnth;
    try discriminate Hnth; try lia;
    try (destruct n; discriminate Hnth).
  - injection Hnth as <-. rewrite Nat.add_0_r in Hread. congruence.
  - injection Hnth as <-. rewrite Nat.add_0_r in Hread.
    replace e0 with e in * by congruence.
    rewrite backoff_sleeps_probe by assumption.
    split; [reflexivity|]. split; [|reflexivity].
    apply (last_probe_then probe []).
  - injection Hnth as <-. rewrite Nat.add_0_r in Hread. congruence.
  - injection Hnth as <-. rewrite Nat.add_0_r in Hread. congruence.
  - rewrite Nat.add_succ_r in Hread.
    match goal with
    | Hrest : loop_run _ _ _ (range_from (S a) (S n)) _ _ _ _ _ |- _ =>
        destruct (IH (S a) _ _ _ _ _ ltac:(lia) Hrest req e Hnth Hread Hreq)
          as (Hx & Hlast & Hlen)
    end.
    split; [exact Hx|]. split.
    + rewrite app_assoc, last_app, Hlast. reflexivity.
    + rewrite backoff_sleeps_probe by assumption.
      cbn [app backoff_sleeps length]. rewrite Hlen. reflexivity.
Qed.



(** With at least one attempt to make, the loop is left from inside. *)
Lemma loop_run_no_fallback (max_retries : Z) (text : str) (n : nat) :
  forall (a : nat) (t : Z) (p p' : nat) (x : exit) (log : list event),
    Z.of_nat (a + S n) = max_retries ->
    loop_run b max_retries text (range_from a (S n)) t p x p' log ->
    forall text', x <> FallbackReturn text'.
Proof.
  induction n as [|n IH]; intros a t p p' x log Hmax Hrun text';
    rewrite range_from_S in Hrun;
    inversion Hrun as [|? ? ? ? ? ? ? Hatt|? ? ? ? ? ? ? ? ? ? Hatt Hrest]; subst;
    inversion Hatt; subst; try discriminate; try lia.
  apply (IH (S a) _ _ _ _ _ ltac:(lia) Hrest).
Qed.


End Runs.

Lemma range_is_range_from (n : Z) : range n = range_from 0 (Z.to_nat n).
Proof. reflexivity. Qed.

(** A whole call, as a run of the loop. *)
Lemma enhance_run (b : backend) (text : str) (x : exit) (c : calls)
    (log : list event) :
  run (enhance_text_with_ollama b text) = (x, c, log) ->
  loop_run b MAX_RETRIES text (range_from 0 3) INITIAL_TIMEOUT 0 x (n_post c) log.
Proof.
  unfold run, enhance_text_with_ollama, enhance_with. intros H.
  apply retry_loop_run in H. exact H.
Qed.

Lemma post_timeouts_built (text : str) (ts : list Z) :
  List.map req_timeout (List.map (build_request text) ts) = ts.
Proof.
  induction ts as [|t ts IH]; simpl; [reflexivity|]. rewrite IH. reflexivity.
Qed.

Lemma half_is_quarter_of_double (t : Z) :
  (inject_Z t * (1 # 2) == inject_Z (2 * t) * (1 # 4))%Q.
Proof. unfold Qeq, Qmult, inject_Z. simpl. lia. Qed.

(** C1 fails on the code: when no probe is ever answered with status
    200, [enhance_text_with_ollama] does not raise. It makes one probe
    (at most two GETs and one launch), issues no POST, reports
    "Unexpected error: Ollama server unavailable" and returns its
    input: the builtin [ConnectionError] of line 66 is caught by the
    handler of line 101. *)
Theorem unreachable_backend_returns_input (b : backend) (text : str) :
  (forall n, get_tags b n <> inr 200) ->
  exists c log,
    run (enhance_text_with_ollama b text) = (ReturnInput text, c, log)
    /\ outcome (ReturnInput text) = inr (VStr text)
    /\ posts log = []
    /\ (n_get c <= 2)%nat /\ (n_popen c <= 1)%nat
    /\ last log = Some (EvStError unavailable_message).
Proof.
  intros Hdown.
  unfold run, enhance_text_with_ollama, enhance_with.
  change (range MAX_RETRIES) with [0; 1; 2].
  cbn [retry_loop]. unfold bind at 1. unfold attempt_body, try_block, bind.
  destruct (check_ollama_connection_spec b calls0)
    as (up & c1 & probe & Hcheck & Hposts & Hprobe & Hget & Hpopen & Hup).
  rewrite Hcheck. destruct up.
  - destruct (Hup eq_refl) as [n Hn]. exfalso. exact (Hdown n Hn).
  - cbn [negb]. unfold ret, st_error. cbn [is_RequestException is_Exception exn_cls].
    eexists _, _. split; [reflexivity|]. tidy_log.
    split; [reflexivity|]. split.
    + rewrite posts_app, posts_probe by assumption. reflexivity.
    + split; [exact Hget|]. split; [exact Hpopen|]. apply last_snoc.
Qed.

Lemma dead_backend_returns_input :
  exists c log,
    run (enhance_text_with_ollama dead_backend (lit "abc"))
    = (ReturnInput (lit "abc"), c, log)
    /\ outcome (ReturnInput (lit "abc")) = inr (VStr (lit "abc"))
    /\ posts log = []
    /\ (n_get c <= 2)%nat /\ (n_popen c <= 1)%nat
    /\ last log = Some (EvStError unavailable_message).
Proof.
  apply (unreachable_backend_returns_input dead_backend (lit "abc")).
  intros n H. discriminate H.
Defined.

(** The whole run on the dead backend: one GET, the launch, the two
    waits, one more GET, the diagnostic; the input comes back. *)
Example dead_backend_run :
  run (enhance_text_with_ollama dead_backend (lit "abc"))
  = (ReturnInput (lit "abc"),
     Calls 2 1 0,
     [EvGet (lit "http://localhost:11434/api/tags") 5;
      EvPopen [lit "ollama"; lit "serve"];
      EvSleep (3 # 1); EvSleep (5 # 1);
      EvGet (lit "http://localhost:11434/api/tags") 5;
      EvStError (lit "Unexpected error: Ollama server unavailable")]).
Proof. reflexivity. Qed.

(** C2: a call issues at most three POSTs, their timeouts are the
    first ones of 30, 60, 120, and when the third POST fails with a
    transport error that error is raised to the caller, with two
    sleeps behind it and nothing done after the POST. *)
Theorem at_most_three_posts_with_doubling_timeouts
    (b : backend) (text : str) (x : exit) (c : calls) (log : list event) :
  run (enhance_text_with_ollama b text) = (x, c, log) ->
  (exists k, (k <= 3)%nat
             /\ post_timeouts log = firstn k [30; 60; 120]
             /\ n_post c = k)
  /\ (forall req e,
        nth_error (posts log) 2 = Some req ->
        read_response (post_chat b 2 req) = inl e ->
        is_RequestException e = true ->
        x = Reraise e /\ outcome x = inl e
        /\ last log = Some (EvPost req)
        /\ length (backoff_sleeps log) = 2%nat).
Proof.
  intros Hrun. apply enhance_run in Hrun. split.
  - destruct (loop_run_shape b MAX_RETRIES text 3 0 _ _ _ _ _ eq_refl Hrun)
      as (k & j & Hk & Hposts & Hp & _).
    exists k. split; [exact Hk|]. split; [|exact Hp].
    rewrite post_timeouts_posts, Hposts, post_timeouts_built.
    apply (doubling_prefix 30 k 3 Hk).
  - intros req e Hnth Hread Hreq.
    destruct (loop_run_final_failure b MAX_RETRIES text 2 0 _ _ _ _ _ eq_refl
                Hrun req e Hnth Hread Hreq) as (Hx & Hlast & Hlen).
    subst x. repeat split; assumption.
Qed.

Lemma three_posts_on_stalling_backend :
  (exists k, (k <= 3)%nat
             /\ post_timeouts
                  (run (enhance_text_with_ollama stalling_backend (lit "abc"))).2
                = firstn k [30; 60; 120]
             /\ n_post (run (enhance_text_with_ollama stalling_backend (lit "abc"))).1.2
                = k)
  /\ (run (enhance_text_with_ollama stalling_backend (lit "abc"))).1.1
     = Reraise timed_out
  /\ outcome (run (enhance_text_with_ollama stalling_backend (lit "abc"))).1.1
     = inl timed_out
  /\ last (run (enhance_text_with_ollama stalling_backend (lit "abc"))).2
     = Some (EvPost (build_request (lit "abc") 120))
  /\ length
       (backoff_sleeps
          (run (enhance_text_with_ollama stalling_backend (lit "abc"))).2)
     = 2%nat.
Proof.
  destruct (at_most_three_posts_with_doubling_timeouts stalling_backend (lit "abc")
              (run (enhance_text_with_ollama stalling_backend (lit "abc"))).1.1
              (run (enhance_text_with_ollama stalling_backend (lit "abc"))).1.2
              (run (enhance_text_with_ollama stalling_backend (lit "abc"))).2)
    as [Hposts Hfinal].
  - vm_compute. reflexivity.
  - split; [exact Hposts|].
    apply (Hfinal (build_request (lit "abc") 120) timed_out);
      vm_compute; reflexivity.
Defined.

(** The run on the stalling backend: three POSTs, two sleeps, the
    time-out raised. *)
Example stalling_backend_run :
  let '(x, c, log) := run (enhance_text_with_ollama stalling_backend (lit "abc")) in
  x = Reraise timed_out
  /\ post_timeouts log = [30; 60; 120]
  /\ backoff_sleeps log = [30 # 2; 60 # 2]%Q.
Proof. vm_compute. repeat split. Qed.

(** C3, as the code has it: a sleep of the retry path lasts half the
    timeout of the POST that has just failed, which is a quarter of
    the timeout of the next POST, when there is one; there are at
    most two such sleeps. *)
Theorem backoff_sleep_is_half_of_failed_timeout
    (b : backend) (text : str) (x : exit) (c : calls) (log : list event) :
  run (enhance_text_with_ollama b text) = (x, c, log) ->
  forall (i : nat) (d : Q),
    nth_error (backoff_sleeps log) i = Some d ->
    (i < 2)%nat
    /\ exists t,
         nth_error (post_timeouts log) i = Some t
         /\ t = INITIAL_TIMEOUT * 2 ^ Z.of_nat i
         /\ (d == inject_Z t * (1 # 2))%Q
         /\ forall t',
              nth_error (post_timeouts log) (S i) = Some t' ->
              t' = 2 * t /\ (d == inject_Z t' * (1 # 4))%Q.
Proof.
  intros Hrun i d Hd. apply enhance_run in Hrun.
  destruct (loop_run_shape b MAX_RETRIES text 3 0 _ _ _ _ _ eq_refl Hrun)
    as (k & j & Hk & Hposts & _ & Hsleeps & Hjk & _ & Hjn).
  rewrite post_timeouts_posts, Hposts, post_timeouts_built.
  rewrite Hsleeps in Hd.
  assert (Hij : (i < j)%nat).
  { apply nth_error_lt in Hd.
    rewrite length_map, doubling_length in Hd. exact Hd. }
  rewrite nth_error_map, (doubling_nth j i INITIAL_TIMEOUT Hij) in Hd.
  cbn [option_map] in Hd. injection Hd as <-.
  split; [lia|].
  exists (INITIAL_TIMEOUT * 2 ^ Z.of_nat i).
  split; [apply doubling_nth; lia|]. split; [reflexivity|].
  split; [reflexivity|].
  intros t' Ht'.
  assert (Hik : (S i < k)%nat).
  { apply nth_error_lt in Ht'.
    rewrite doubling_length in Ht'. exact Ht'. }
  rewrite (doubling_nth k (S i) INITIAL_TIMEOUT Hik) in Ht'. injection Ht' as <-.
  assert (Heq : INITIAL_TIMEOUT * 2 ^ Z.of_nat (S i)
                = 2 * (INITIAL_TIMEOUT * 2 ^ Z.of_nat i)).
  { rewrite Nat2Z.inj_succ, Z.pow_succ_r by lia. lia. }
  split; [exact Heq|].
  rewrite Heq. apply half_is_quarter_of_double.
Qed.


Lemma backoff_sleep_on_stalling_backend :
  (0 < 2)%nat
  /\ exists t,
       nth_error
         (post_timeouts
            (run (enhance_text_with_ollama stalling_backend (lit "abc"))).2) 0
       = Some t
       /\ t = INITIAL_TIMEOUT * 2 ^ Z.of_nat 0
       /\ (30 # 2 == inject_Z t * (1 # 2))%Q
       /\ forall t',
            nth_error
              (post_timeouts
                 (run (enhance_text_with_ollama stalling_backend (lit "abc"))).2) 1
            = Some t' ->
            t' = 2 * t /\ (30 # 2 == inject_Z t' * (1 # 4))%Q.
Proof.
  apply (backoff_sleep_is_half_of_failed_timeout stalling_backend (lit "abc")
           (run (enhance_text_with_ollama stalling_backend (lit "abc"))).1.1
           (run (enhance_text_with_ollama stalling_backend (lit "abc"))).1.2
           (run (enhance_text_with_ollama stalling_backend (lit "abc"))).2).
  - vm_compute. reflexivity.
  - vm_compute. reflexivity.
Defined.

(** C3, as the spec words it, fails on the stalling backend: the
    sleep before the attempt that uses the timeout 60 lasts 15, not
    half of 60. *)
Lemma backoff_sleep_not_half_of_next_timeout :
  ~ (forall (i : nat) (d : Q) (t' : Z),
       nth_error
         (backoff_sleeps
            (run (enhance_text_with_ollama stalling_backend (lit "abc"))).2) i
       = Some d ->
       nth_error
         (post_timeouts
            (run (enhance_text_with_ollama stalling_backend (lit "abc"))).2) (S i)
       = Some t' ->
       (d == inject_Z t' * (1 # 2))%Q).
Proof.
  intros H.
  specialize (H 0%nat (30 # 2)%Q 60 eq_refl eq_refl).
  vm_compute in H. discriminate H.
Qed.




(** The whole run on that backend. *)
Example garbled_backend_run :
  let '(x, c, log) := run (enhance_text_with_ollama Cases.garbled_backend (lit "abc")) in
  x = Reraise (Exn RequestException (lit "Expecting value: line 1 column 1 (char 0)"))
  /\ post_timeouts log = [30; 60; 120]
  /\ backoff_sleeps log = [30 # 2; 60 # 2]%Q
  /\ Log.diagnostics log = [].
Proof. vm_compute. repeat split. Qed.

(** C10: when [MAX_RETRIES] is at least 1, the iteration of the last
    attempt always leaves the function, and no call leaves it through
    the return of line 105. *)
Theorem fallback_return_unreachable
    (b : backend) (max_retries : Z) (text : str) :
  1 <= max_retries ->
  (forall (timeout : Z) (c c' : calls) (s : step) (log : list event),
     attempt_body b max_retries text (max_retries - 1) timeout c = (s, c', log) ->
     exists x, s = Exit x)
  /\ (forall (c c' : calls) (x : exit) (log : list event),
        enhance_with b max_retries text c = (x, c', log) ->
        forall text', x <> FallbackReturn text').
Proof.
  intros Hmax. split.
  - intros timeout c c' s log Hbody.
    apply attempt_body_run in Hbody.
    inversion Hbody; subst; eauto. congruence.
  - intros c c' x log Hrun text'.
    unfold enhance_with in Hrun. rewrite range_is_range_from in Hrun.
    apply retry_loop_run in Hrun.
    destruct (Z.to_nat max_retries) as [|n] eqn:Hn; [lia|].
    apply (loop_run_no_fallback b max_retries text n 0 _ _ _ _ _
             ltac:(lia) Hrun).
Qed.

Lemma fallback_return_unreachable_for_three :
  (forall (timeout : Z) (c c' : calls) (s : step) (log : list event),
     attempt_body flaky_backend MAX_RETRIES (lit "abc") (MAX_RETRIES - 1) timeout c
     = (s, c', log) ->
     exists x, s = Exit x)
  /\ (forall (c c' : calls) (x : exit) (log : list event),
        enhance_text_with_ollama flaky_backend (lit "abc") c = (x, c', log) ->
        forall text', x <> FallbackReturn text').
Proof.
  apply (fallback_return_unreachable flaky_backend MAX_RETRIES (lit "abc")).
  unfold MAX_RETRIES. lia.
Defined.

(** With no attempt to make, line 105 is where the call ends. *)
Example fallback_return_with_no_attempt :
  run (enhance_with flaky_backend 0 (lit "abc"))
  = (FallbackReturn (lit "abc"), calls0, []).
Proof. reflexivity. Qed.

(** Two time-outs, then an answer: its content is returned after two
    sleeps. *)
Example flaky_backend_run :
  let '(x, c, log) := run (enhance_text_with_ollama flaky_backend (lit "abc")) in
  x = ReturnContent (VStr (lit "Better."))
  /\ post_timeouts log = [30; 60; 120]
  /\ backoff_sleeps log = [30 # 2; 60 # 2]%Q.
Proof. vm_compute. repeat split. Qed.

End EnhanceFacts.

(** ** More on the enhancement client: the probe, the requests, the
       cost of a call and the ways it ends *)
Module ClientFacts.
Import Enhance Log EnhanceFacts.

Lemma total_sleep_app (l1 l2 : list event) :
  (total_sleep (l1 ++ l2) == total_sleep l1 + total_sleep l2)%Q.
Proof.
  induction l1 as [|ev l1 IH]; simpl.
  - lra.
  - destruct ev; simpl; rewrite ?IH; lra.
Qed.

Lemma diagnostics_app (l1 l2 : list event) :
  diagnostics (l1 ++ l2) = diagnostics l1 ++ diagnostics l2.
Proof.
  induction l1 as [|ev l1 IH]; simpl; [reflexivity|].
  destruct ev; simpl; rewrite ?IH; reflexivity.
Qed.

Lemma diagnostics_probe (probe : list event) :
  forallb is_probe_event probe = true -> diagnostics probe = [].
Proof.
  induction probe as [|ev probe IH]; simpl; [reflexivity|].
  intros H. apply andb_true_iff in H as [Hev H].
  destruct ev; simpl in *; try discriminate; exact (IH H).
Qed.

(** X1: The probe answers [True] exactly when the first GET is answered
    with status 200, or it raises, the launch of [ollama serve] does
    not raise and the second GET is answered with status 200. The
    launch is attempted exactly when the first GET raises: an answer
    with another status is taken as "down" without a restart. A probe
    sleeps 8 seconds at most. *)
Theorem probe_answer (b : backend) (c : calls) :
  let '(up, c', log) := check_ollama_connection b c in
  (up = true <->
     get_tags b (n_get c) = inr 200
     \/ ((exists e, get_tags b (n_get c) = inl e)
         /\ popen_serve b (n_popen c) = None
         /\ get_tags b (S (n_get c)) = inr 200))
  /\ (In (EvPopen [lit "ollama"; lit "serve"]) log <->
        exists e, get_tags b (n_get c) = inl e)
  /\ (n_popen c' = n_popen c \/ n_popen c' = S (n_popen c))
  /\ (total_sleep log <= 8)%Q.
Proof.
  unfold check_ollama_connection, start_ollama_server, bind, ret,
    requests_get, subprocess_Popen, time_sleep.
  cbn [n_get n_popen n_post].
  destruct (get_tags b (n_get c)) as [e|status] eqn:G1;
    cbn [n_get n_popen n_post].
  - destruct (popen_serve b (n_popen c)) as [e'|] eqn:P;
      cbn [n_get n_popen n_post negb].
    + split; [|split; [|split]].
      * split; [intros H; discriminate H|].
        intros [H|(_ & H & _)]; discriminate H.
      * split; [eauto|]. intros _. cbn. auto.
      * right. reflexivity.
      * cbn. lra.
    + destruct (get_tags b (S (n_get c))) as [e2|status2] eqn:G2;
        cbn [n_get n_popen n_post].
      * split; [|split; [|split]].
        -- split; [intros H; discriminate H|].
           intros [H|(_ & _ & H)]; discriminate H.
        -- split; [eauto|]. intros _. cbn. auto.
        -- right. reflexivity.
        -- cbn. lra.
      * split; [|split; [|split]].
        -- rewrite Z.eqb_eq. split.
           ++ intros ->. right. eauto.
           ++ intros [H|(_ & _ & H)]; [discriminate H|]. congruence.
        -- split; [eauto|]. intros _. cbn. auto.
        -- right. reflexivity.
        -- cbn. lra.
  - split; [|split; [|split]].
    + rewrite Z.eqb_eq. split.
      * intros ->. left. reflexivity.
      * intros [H|((e & H) & _)]; [congruence|discriminate H].
    + split.
      * cbn. intros [H|[]]. discriminate H.
      * intros [e H]. discriminate H.
    + left. reflexivity.
    + cbn. lra.
Qed.


Lemma check_ollama_connection_cost (b : backend) (c : calls) :
  exists up c' probe,
    check_ollama_connection b c = (up, c', probe)
    /\ (n_get c' <= n_get c + 2)%nat
    /\ (n_popen c' <= n_popen c + 1)%nat
    /\ n_post c' = n_post c
    /\ (0 <= total_sleep probe <= 8)%Q.
Proof.
  unfold check_ollama_connection, start_ollama_server, bind, ret,
    requests_get, subprocess_Popen, time_sleep.
  cbn [n_get n_popen n_post].
  destruct (get_tags b (n_get c)) as [e|status];
    cbn [n_get n_popen n_post].
  - destruct (popen_serve b (n_popen c)) as [e'|];
      cbn [n_get n_popen n_post negb].
    + eexists _, _, _. split; [reflexivity|]. cbn [n_get n_popen n_post].
      repeat split; try lia; cbn; lra.
    + destruct (get_tags b (S (n_get c))) as [e2|status2];
        eexists _, _, _; (split; [reflexivity|]); cbn [n_get n_popen n_post];
        repeat split; try lia; cbn; lra.
  - eexists _, _, _. split; [reflexivity|]. cbn [n_get n_popen n_post].
    repeat split; try lia; cbn; lra.
Qed.

Lemma inject_Z_nonneg (t : Z) : 0 <= t -> (0 <= inject_Z t)%Q.
Proof. intros H. unfold Qle. simpl. lia. Qed.

(** What one iteration costs. *)
Lemma attempt_body_cost (b : backend) (max_retries : Z) (text : str)
    (attempt timeout : Z) (c c' : calls) (s : step) (log : list event) :
  attempt_body b max_retries text attempt timeout c = (s, c', log) ->
  (n_get c' <= n_get c + 2)%nat
  /\ (n_popen c' <= n_popen c + 1)%nat
  /\ match s with
     | Exit _ => (total_sleep log <= 8)%Q
     | Continue timeout' =>
         timeout' = timeout * 2
         /\ attempt <> max_retries - 1
         /\ (total_sleep log <= 8 + inject_Z timeout * (1 # 2))%Q
     end.
Proof.
  unfold attempt_body, try_block, bind.
  destruct (check_ollama_connection_cost b c)
    as (up & c1 & probe & Hcheck & Hget & Hpopen & Hpost & Hsleep).
  rewrite Hcheck. destruct up; cbn [negb].
  - unfold requests_post, ret, time_sleep, st_error.
    cbn [n_get n_popen n_post].
    destruct (read_response (post_chat b (n_post c1) (build_request text timeout)))
      as [e|v].
    + destruct (is_RequestException e).
      * destruct (attempt =? max_retries - 1) eqn:Last;
          intros H; injection H as <- <- <-; cbn [n_get n_popen n_post];
          (split; [exact Hget|]); (split; [exact Hpopen|]);
          rewrite ?app_nil_r, ?total_sleep_app; cbn [total_sleep].
        -- lra.
        -- apply Z.eqb_neq in Last. repeat split; [exact Last|lra].
      * destruct (is_Exception e);
          intros H; injection H as <- <- <-; cbn [n_get n_popen n_post];
          (split; [exact Hget|]); (split; [exact Hpopen|]);
          rewrite ?app_nil_r, ?total_sleep_app; cbn [total_sleep]; lra.
    + intros H. injection H as <- <- <-. cbn [n_get n_popen n_post].
      split; [exact Hget|]. split; [exact Hpopen|].
      rewrite ?app_nil_r, ?total_sleep_app. cbn [total_sleep]. lra.
  - unfold ret, st_error. cbn [is_RequestException is_Exception exn_cls].
    intros H. injection H as <- <- <-.
    split; [exact Hget|]. split; [exact Hpopen|].
    rewrite ?app_nil_r, ?total_sleep_app. cbn [total_sleep]. lra.
Qed.

Lemma sleep_budget_S (t : Z) (n : nat) :
  0 <= t -> (8 <= sleep_budget t (S n))%Q.
Proof.
  revert t. induction n as [|n IH]; intros t Ht.
  - cbn. lra.
  - change (sleep_budget t (S (S n)))
      with (8 + inject_Z t * (1 # 2) + sleep_budget (t * 2) (S n))%Q.
    pose proof (IH (t * 2) ltac:(lia)).
    pose proof (inject_Z_nonneg t Ht). lra.
Qed.

(** What a run of the loop costs. *)
Lemma retry_loop_cost (b : backend) (max_retries : Z) (text : str) (n : nat) :
  forall (a : nat) (t : Z) (c c' : calls) (x : exit) (log : list event),
    0 <= t ->
    Z.of_nat (a + n) = max_retries ->
    retry_loop b max_retries text (range_from a n) t c = (x, c', log) ->
    (n_get c' <= n_get c + 2 * n)%nat
    /\ (n_popen c' <= n_popen c + n)%nat
    /\ (total_sleep log <= sleep_budget t n)%Q.
Proof.
  induction n as [|n IH]; intros a t c c' x log Ht Hmax.
  - cbn [range_from seq List.map retry_loop]. unfold ret.
    intros H. injection H as <- <- <-. cbn. repeat split; try lia. lra.
  - rewrite range_from_S. cbn [retry_loop]. unfold bind.
    destruct (attempt_body b max_retries text (Z.of_nat a) t c)
      as [[s c1] log1] eqn:B.
    apply attempt_body_cost in B. destruct B as (Hget & Hpopen & Hs).
    destruct s as [x1|t'].
    + unfold ret. intros H. injection H as <- <- <-.
      rewrite app_nil_r.
      pose proof (sleep_budget_S t n Ht).
      repeat split; try lia. lra.
    + destruct Hs as (-> & Hlast & Hsleep).
      destruct (retry_loop b max_retries text (range_from (S a) n) (t * 2) c1)
        as [[x2 c2] log2] eqn:L.
      intros H. injection H as <- <- <-.
      destruct (IH (S a) (t * 2) _ _ _ _ ltac:(lia) ltac:(lia) L)
        as (Hget2 & Hpopen2 & Hsleep2).
      destruct n as [|n]; [exfalso; lia|].
      change (sleep_budget t (S (S n)))
        with (8 + inject_Z t * (1 # 2) + sleep_budget (t * 2) (S n))%Q.
      rewrite total_sleep_app.
      repeat split; try lia. lra.
Qed.

(** X2: A call makes at most six GETs of the status route, launches
    [ollama serve] at most three times, issues at most three POSTs
    whose timeouts add up to 210 seconds at most, and sleeps 69
    seconds at most. *)
Theorem call_cost (b : backend) (text : str) :
  let '(x, c, log) := run (enhance_text_with_ollama b text) in
  (n_get c <= 6)%nat
  /\ (n_popen c <= 3)%nat
  /\ (n_post c <= 3)%nat
  /\ fold_right Z.add 0 (post_timeouts log) <= 210
  /\ (total_sleep log <= 69)%Q.
Proof.
  destruct (run (enhance_text_with_ollama b text)) as [[x c] log] eqn:Hrun.
  pose proof Hrun as Hloop. apply enhance_run in Hloop.
  destruct (loop_run_shape b MAX_RETRIES text 3 0 _ _ _ _ _ eq_refl Hloop)
    as (k & j & Hk & Hposts & Hp & _).
  unfold run, enhance_text_with_ollama, enhance_with in Hrun.
  rewrite range_is_range_from in Hrun.
  destruct (retry_loop_cost b MAX_RETRIES text 3 0 INITIAL_TIMEOUT _ _ _ _
              ltac:(unfold INITIAL_TIMEOUT; lia) eq_refl Hrun)
    as (Hget & Hpopen & Hsleep).
  cbn [n_get n_popen calls0] in Hget, Hpopen.
  split; [lia|]. split; [lia|]. split; [lia|]. split.
  - rewrite post_timeouts_posts, Hposts, post_timeouts_built.
    unfold INITIAL_TIMEOUT.
    destruct k as [|[|[|[|k]]]]; cbn; unfold TIMEOUT_BACKOFF_FACTOR; lia.
  - assert (Hbudget : (sleep_budget INITIAL_TIMEOUT 3 == 69)%Q) by reflexivity.
    rewrite Hbudget in Hsleep. exact Hsleep.
Qed.

Lemma firstn_subseteq_in_helper {A : Type} (k : nat) (l : list A) (x : A) :
  In x (firstn k l) -> In x l.
Proof.
  revert l. induction k as [|k IH]; intros l H; [destruct H|].
  destruct l as [|y l]; [destruct H|].
  destruct H as [H|H]; [left; exact H|right; exact (IH l H)].
Qed.

Lemma last_after_retry (probe rest : list event) (ev1 ev2 ev : event) :
  last rest = Some ev -> last (probe ++ ev1 :: ev2 :: rest) = Some ev.
Proof.
  intros H. change (ev1 :: ev2 :: rest) with ([ev1; ev2] ++ rest).
  rewrite app_assoc, last_app, H. reflexivity.
Qed.

Section Endings.

Variable b : backend.

(** A POST that is answered with a content ends the call. *)
Lemma loop_run_success (max_retries : Z) (text : str) (attempts : list Z)
    (t : Z) (p p' : nat) (x : exit) (log : list event) :
  loop_run b max_retries text attempts t p x p' log ->
  forall (i : nat) (req : chat_request) (v : value),
    nth_error (posts log) i = Some req ->
    read_response (post_chat b (p + i) req) = inr v ->
    x = ReturnContent v
    /\ length (posts log) = S i
    /\ length (backoff_sleeps log) = i
    /\ last log = Some (EvPost req).
Proof.
  induction 1 as [|? ? ? ? ? ? ? Hatt|? ? ? ? ? ? ? ? ? ? Hatt Hrest IH];
    intros i req v Hnth Hread.
  - destruct i; discriminate Hnth.
  - inversion Hatt; subst;
      rewrite posts_app, posts_probe in Hnth |- * by assumption;
      rewrite backoff_sleeps_probe by assumption;
      cbn [app posts] in Hnth |- *;
      destruct i as [|i]; try discriminate Hnth;
      try (destruct i; discriminate Hnth);
      injection Hnth as <-; rewrite Nat.add_0_r in Hread;
      try congruence.
    replace v0 with v in * by congruence.
    repeat split. apply last_snoc.
  - inversion Hatt; subst.
    rewrite <- app_assoc in Hnth |- *.
    rewrite posts_app, posts_probe in Hnth |- * by assumption.
    rewrite backoff_sleeps_probe by assumption.
    cbn [app posts backoff_sleeps length] in Hnth |- *.
    destruct i as [|i].
    + injection Hnth as <-. rewrite Nat.add_0_r in Hread. congruence.
    + cbn [nth_error] in Hnth. rewrite Nat.add_succ_r in Hread.
      destruct (IH i req v Hnth Hread) as (Hx & Hlen & Hsl & Hlast).
      split; [exact Hx|]. split; [congruence|]. split; [congruence|].
      apply last_after_retry. exact Hlast.
Qed.

(** An exception that reaches the caller and derives from [Exception]
    is the transport error of the POST of the last attempt. *)
Lemma loop_run_raise (max_retries : Z) (text : str) (n : nat) :
  forall (a : nat) (t : Z) (p p' : nat) (x : exit) (log : list event),
    Z.of_nat (a + S n) = max_retries ->
    loop_run b max_retries text (range_from a (S n)) t p x p' log ->
    forall e : exn,
      outcome x = inl e ->
      is_Exception e = true ->
      x = Reraise e
      /\ is_RequestException e = true
      /\ length (backoff_sleeps log) = n
      /\ exists req,
           nth_error (posts log) n = Some req
           /\ last log = Some (EvPost req)
           /\ read_response (post_chat b (p + n) req) = inl e.
Proof.
  induction n as [|n IH]; intros a t p p' x log Hmax Hrun e Hout Hexc;
    rewrite range_from_S in Hrun;
    inversion Hrun as [|? ? ? ? ? ? ? Hatt|? ? ? ? ? ? ? ? ? ? Hatt Hrest]; subst;
    inversion Hatt; subst; cbn [outcome] in Hout;
    try discriminate Hout; try lia;
    try (injection Hout as ->; congruence).
  - injection Hout as ->.
    rewrite posts_app, posts_probe, backoff_sleeps_probe by assumption.
    split; [reflexivity|]. split; [assumption|]. split; [reflexivity|].
    exists (build_request text t). rewrite Nat.add_0_r.
    split; [reflexivity|]. split; [apply last_snoc|assumption].
  - match goal with
    | Hrest : loop_run _ _ _ (range_from (S a) (S n)) _ _ _ _ _ |- _ =>
        destruct (IH (S a) _ _ _ _ _ ltac:(lia) Hrest e Hout Hexc)
          as (Hx & Hreq & Hlen & req & Hnth & Hlast & Hread)
    end.
    rewrite <- app_assoc.
    rewrite posts_app, posts_probe, backoff_sleeps_probe by assumption.
    cbn [app posts backoff_sleeps length nth_error].
    split; [exact Hx|]. split; [exact Hreq|]. split; [congruence|].
    exists req. split; [exact Hnth|]. split.
    + apply last_after_retry. exact Hlast.
    + rewrite Nat.add_succ_r. exact Hread.
Qed.

(** A message goes to [st.error] exactly when the loop hands the
    input back, it is the only one and the last thing logged. *)
Lemma loop_run_diagnostics (max_retries : Z) (text : str) (attempts : list Z)
    (t : Z) (p p' : nat) (x : exit) (log : list event) :
  loop_run b max_retries text attempts t p x p' log ->
  (diagnostics log = [] /\ forall text', x <> ReturnInput text')
  \/ (x = ReturnInput text
      /\ exists m, diagnostics log = [m] /\ last log = Some (EvStError m)).
Proof.
  induction 1 as [|? ? ? ? ? ? ? Hatt|? ? ? ? ? ? ? ? ? ? Hatt Hrest IH].
  - left. split; [reflexivity|]. intros text' H. discriminate H.
  - inversion Hatt; subst;
      rewrite diagnostics_app, diagnostics_probe by assumption;
      cbn [app diagnostics].
    + right. split; [reflexivity|]. eexists. split; [reflexivity|].
      apply last_snoc.
    + left. split; [reflexivity|]. intros text' H. discriminate H.
    + left. split; [reflexivity|]. intros text' H. discriminate H.
    + right. split; [reflexivity|]. eexists. split; [reflexivity|].
      apply (last_probe_then probe [_]).
    + left. split; [reflexivity|]. intros text' H. discriminate H.
  - inversion Hatt; subst.
    rewrite diagnostics_app, diagnostics_app, diagnostics_probe by assumption.
    cbn [app diagnostics].
    destruct IH as [[Hd Hx]|(Hx & m & Hd & Hlast)].
    + left. split; assumption.
    + right. split; [exact Hx|]. exists m. split; [exact Hd|].
      rewrite last_app, Hlast. reflexivity.
Qed.

End Endings.

(** X3: Every POST of a call goes to the chat route with the model name,
    streaming off, a system and a user message, the user message being
    the first 20,000 characters of the text, and one of the timeouts
    30, 60, 120: the attempts differ in their timeout only. *)
Theorem every_post_carries_the_truncated_text
    (b : backend) (text : str) (x : exit) (c : calls) (log : list event)
    (req : chat_request) :
  run (enhance_text_with_ollama b text) = (x, c, log) ->
  In req (posts log) ->
  req = build_request text (req_timeout req)
  /\ In (req_timeout req) [30; 60; 120]
  /\ req_url req = lit "http://localhost:11434/api/chat"
  /\ req_model req = lit "deepseek-r1:7b"
  /\ req_stream req = false
  /\ List.map fst (req_messages req) = [lit "system"; lit "user"]
  /\ nth_error (List.map snd (req_messages req)) 1
     = Some (firstn (Z.to_nat 20000) text)
  /\ Z.of_nat (length (firstn (Z.to_nat 20000) text)) <= 20000.
Proof.
  intros Hrun Hin. apply enhance_run in Hrun.
  destruct (loop_run_shape b MAX_RETRIES text 3 0 _ _ _ _ _ eq_refl Hrun)
    as (k & j & Hk & Hposts & _).
  rewrite Hposts in Hin. apply in_map_iff in Hin as (t & <- & Ht).
  rewrite (doubling_prefix INITIAL_TIMEOUT k 3 Hk) in Ht.
  apply firstn_subseteq_in_helper in Ht.
  split; [reflexivity|]. split; [exact Ht|].
  repeat split. rewrite length_firstn. lia.
Qed.

Lemma every_post_carries_the_truncated_text_on_flaky_backend :
  build_request (lit "abc") 60
  = build_request (lit "abc") (req_timeout (build_request (lit "abc") 60))
  /\ In (req_timeout (build_request (lit "abc") 60)) [30; 60; 120]
  /\ req_url (build_request (lit "abc") 60) = lit "http://localhost:11434/api/chat"
  /\ req_model (build_request (lit "abc") 60) = lit "deepseek-r1:7b"
  /\ req_stream (build_request (lit "abc") 60) = false
  /\ List.map fst (req_messages (build_request (lit "abc") 60))
     = [lit "system"; lit "user"]
  /\ nth_error (List.map snd (req_messages (build_request (lit "abc") 60))) 1
     = Some (firstn (Z.to_nat 20000) (lit "abc"))
  /\ Z.of_nat (length (firstn (Z.to_nat 20000) (lit "abc"))) <= 20000.
Proof.
  apply (every_post_carries_the_truncated_text flaky_backend (lit "abc")
           (run (enhance_text_with_ollama flaky_backend (lit "abc"))).1.1
           (run (enhance_text_with_ollama flaky_backend (lit "abc"))).1.2
           (run (enhance_text_with_ollama flaky_backend (lit "abc"))).2).
  - vm_compute. reflexivity.
  - vm_compute. right. left. reflexivity.
Defined.

(** X4: When a POST of a call is answered and the answer holds a content,
    the call returns that content: the POST is the last thing the call
    does, it is the [i]+1-th one, made with the timeout 30 * 2^i after
    [i] sleeps. *)
Theorem answered_post_ends_the_call
    (b : backend) (text : str) (x : exit) (c : calls) (log : list event)
    (i : nat) (req : chat_request) (v : value) :
  run (enhance_text_with_ollama b text) = (x, c, log) ->
  nth_error (posts log) i = Some req ->
  read_response (post_chat b i req) = inr v ->
  x = ReturnContent v
  /\ outcome x = inr v
  /\ length (posts log) = S i
  /\ length (backoff_sleeps log) = i
  /\ last log = Some (EvPost req)
  /\ req_timeout req = INITIAL_TIMEOUT * 2 ^ Z.of_nat i.
Proof.
  intros Hrun Hnth Hread. apply enhance_run in Hrun.
  destruct (loop_run_success b _ _ _ _ _ _ _ _ Hrun i req v Hnth Hread)
    as (Hx & Hlen & Hsleeps & Hlast).
  subst x. repeat split; try assumption.
  destruct (loop_run_shape b MAX_RETRIES text 3 0 _ _ _ _ _ eq_refl Hrun)
    as (k & j & Hk & Hposts & _).
  rewrite Hposts in Hnth, Hlen. rewrite length_map, doubling_length in Hlen.
  rewrite nth_error_map, (doubling_nth k i INITIAL_TIMEOUT ltac:(lia)) in Hnth.
  cbn [option_map] in Hnth. injection Hnth as <-. reflexivity.
Qed.

Lemma third_post_answered_on_flaky_backend :
  (run (enhance_text_with_ollama flaky_backend (lit "abc"))).1.1
  = ReturnContent (VStr (lit "Better."))
  /\ outcome (run (enhance_text_with_ollama flaky_backend (lit "abc"))).1.1
     = inr (VStr (lit "Better."))
  /\ length (posts (run (enhance_text_with_ollama flaky_backend (lit "abc"))).2)
     = 3%nat
  /\ length (backoff_sleeps (run (enhance_text_with_ollama flaky_backend (lit "abc"))).2)
     = 2%nat
  /\ last (run (enhance_text_with_ollama flaky_backend (lit "abc"))).2
     = Some (EvPost (build_request (lit "abc") 120))
  /\ req_timeout (build_request (lit "abc") 120) = INITIAL_TIMEOUT * 2 ^ Z.of_nat 2.
Proof.
  apply (answered_post_ends_the_call flaky_backend (lit "abc")
           (run (enhance_text_with_ollama flaky_backend (lit "abc"))).1.1
           (run (enhance_text_with_ollama flaky_backend (lit "abc"))).1.2
           (run (enhance_text_with_ollama flaky_backend (lit "abc"))).2);
    vm_compute; reflexivity.
Defined.

(** X5: The only exception deriving from [Exception] that a call lets out
    is the transport error of its third POST: when the caller gets
    one, three POSTs were made with the timeouts 30, 60, 120, two
    sleeps were taken, and the third POST is the last thing done. *)
Theorem only_the_third_transport_error_is_raised
    (b : backend) (text : str) (x : exit) (c : calls) (log : list event)
    (e : exn) :
  run (enhance_text_with_ollama b text) = (x, c, log) ->
  outcome x = inl e ->
  is_Exception e = true ->
  x = Reraise e
  /\ is_RequestException e = true
  /\ post_timeouts log = [30; 60; 120]
  /\ length (backoff_sleeps log) = 2%nat
  /\ last log = Some (EvPost (build_request text 120))
  /\ read_response (post_chat b 2 (build_request text 120)) = inl e.
Proof.
  intros Hrun Hout Hexc. apply enhance_run in Hrun.
  destruct (loop_run_raise b MAX_RETRIES text 2 0 _ _ _ _ _ eq_refl Hrun e Hout Hexc)
    as (Hx & Hreq & Hsleeps & req & Hnth & Hlast & Hread).
  destruct (loop_run_shape b MAX_RETRIES text 3 0 _ _ _ _ _ eq_refl Hrun)
    as (k & j & Hk & Hposts & _).
  assert (Hk3 : k = 3%nat).
  { apply nth_error_lt in Hnth.
    rewrite Hposts, length_map, doubling_length in Hnth. lia. }
  subst k. rewrite Hposts in Hnth. cbn in Hnth. injection Hnth as <-.
  split; [exact Hx|]. split; [exact Hreq|]. split.
  - rewrite post_timeouts_posts, Hposts. reflexivity.
  - split; [exact Hsleeps|]. split; [exact Hlast|exact Hread].
Qed.

Lemma time_out_raised_on_stalling_backend :
  (run (enhance_text_with_ollama stalling_backend (lit "abc"))).1.1
  = Reraise timed_out
  /\ is_RequestException timed_out = true
  /\ post_timeouts (run (enhance_text_with_ollama stalling_backend (lit "abc"))).2
     = [30; 60; 120]
  /\ length (backoff_sleeps (run (enhance_text_with_ollama stalling_backend (lit "abc"))).2)
     = 2%nat
  /\ last (run (enhance_text_with_ollama stalling_backend (lit "abc"))).2
     = Some (EvPost (build_request (lit "abc") 120))
  /\ read_response (post_chat stalling_backend 2 (build_request (lit "abc") 120))
     = inl timed_out.
Proof.
  apply (only_the_third_transport_error_is_raised stalling_backend (lit "abc")
           (run (enhance_text_with_ollama stalling_backend (lit "abc"))).1.1
           (run (enhance_text_with_ollama stalling_backend (lit "abc"))).1.2
           (run (enhance_text_with_ollama stalling_backend (lit "abc"))).2);
    vm_compute; reflexivity.
Defined.

(** X6: A call gives a message to [st.error] exactly when it returns its
    input because of a failure; the message is then the only one and
    the last thing the call does. In every other case nothing is
    reported. *)
Theorem one_diagnostic_exactly_when_input_is_returned
    (b : backend) (text : str) (x : exit) (c : calls) (log : list event) :
  run (enhance_text_with_ollama b text) = (x, c, log) ->
  (diagnostics log = [] /\ forall text', x <> ReturnInput text')
  \/ (x = ReturnInput text
      /\ exists m, diagnostics log = [m] /\ last log = Some (EvStError m)).
Proof.
  intros Hrun. apply enhance_run in Hrun.
  exact (loop_run_diagnostics b _ _ _ _ _ _ _ _ Hrun).
Qed.

Lemma one_diagnostic_on_odd_backend :
  (diagnostics (run (enhance_text_with_ollama odd_backend (lit "abc"))).2 = []
   /\ forall text',
        (run (enhance_text_with_ollama odd_backend (lit "abc"))).1.1
        <> ReturnInput text')
  \/ ((run (enhance_text_with_ollama odd_backend (lit "abc"))).1.1
      = ReturnInput (lit "abc")
      /\ exists m,
           diagnostics (run (enhance_text_with_ollama odd_backend (lit "abc"))).2 = [m]
           /\ last (run (enhance_text_with_ollama odd_backend (lit "abc"))).2
              = Some (EvStError m)).
Proof.
  apply (one_diagnostic_exactly_when_input_is_returned odd_backend (lit "abc")
           (run (enhance_text_with_ollama odd_backend (lit "abc"))).1.1
           (run (enhance_text_with_ollama odd_backend (lit "abc"))).1.2
           (run (enhance_text_with_ollama odd_backend (lit "abc"))).2).
  vm_compute. reflexivity.
Defined.

End ClientFacts.

(** ** More on the document save: the counter, the other records, the
       failures *)
Module SaveFacts.
Import Store.

(** X7: A save that returns an identifier returns the one Firestore drew,
    adds one to the [doc_count] of the user (a count that was not set
    becomes 1), and leaves the counts of the other users and every
    other stored document as they were. *)
Theorem save_counts_one_document
    (E : env) (user_id doc_name original enhanced : str)
    (db db' : firestore) (errors : list str) (id : str) :
  save_to_firestore E user_id doc_name original enhanced db
    = (db', errors, inr (Some id)) ->
  id = auto_id E
  /\ (exists count,
        users db !! user_id = Some count
        /\ users db' !! user_id = Some (Some (default 0 count + 1)))
  /\ (forall u, u <> user_id -> users db' !! u = users db !! u)
  /\ (forall k, k <> (user_id, id) -> documents db' !! k = documents db !! k).
Proof.
  unfold save_to_firestore, save_body, doc_set, increment_doc_count.
  destruct (client_error E) as [e|].
  { destruct (is_Exception e); intros H; discriminate H. }
  destruct (set_error E) as [e|].
  { destruct (is_Exception e); intros H; discriminate H. }
  destruct (update_error E) as [e|].
  { destruct (is_Exception e); intros H; discriminate H. }
  cbn [users documents].
  destruct (users db !! user_id) as [count|] eqn:Hcount.
  2:{ simpl. intros H; discriminate H. }
  cbn [snd]. intros H. injection H as <- <- <-.
  cbn [users documents].
  split; [reflexivity|]. split.
  - exists count. split; [reflexivity|]. apply lookup_insert_eq.
  - split.
    + intros u Hu. apply lookup_insert_ne. congruence.
    + intros k Hk. apply lookup_insert_ne. congruence.
Qed.

Lemma save_counts_fifth_document :
  lit "Zk3" = auto_id fine
  /\ (exists count,
        users one_user !! lit "u1" = Some count
        /\ users (save_to_firestore fine (lit "u1") (lit "a.txt") (lit "old")
                    (lit "new") one_user).1.1 !! lit "u1"
           = Some (Some (default 0 count + 1)))
  /\ (forall u, u <> lit "u1" ->
        users (save_to_firestore fine (lit "u1") (lit "a.txt") (lit "old")
                 (lit "new") one_user).1.1 !! u
        = users one_user !! u)
  /\ (forall k, k <> (lit "u1", lit "Zk3") ->
        documents (save_to_firestore fine (lit "u1") (lit "a.txt") (lit "old")
                     (lit "new") one_user).1.1 !! k
        = documents one_user !! k).
Proof.
  apply (save_counts_one_document fine (lit "u1") (lit "a.txt") (lit "old")
           (lit "new") one_user _ []).
  vm_compute. reflexivity.
Defined.

(** X8: When the record is written and the update of the counter then
    fails, because the service refuses it or because the user has no
    document in [users], the function reports a failure and returns
    [None] although the record is stored; the counters are unchanged. *)
Theorem record_stored_though_save_fails
    (E : env) (user_id doc_name original enhanced : str) (db : firestore) :
  client_error E = None ->
  set_error E = None ->
  (exists e, update_error E = Some e /\ is_Exception e = true)
  \/ (update_error E = None /\ users db !! user_id = None) ->
  exists db' message record,
    save_to_firestore E user_id doc_name original enhanced db
      = (db', [message], inr None)
    /\ documents db' !! (user_id, auto_id E) = Some record
    /\ original_content record = firstn (Z.to_nat 10000) original
    /\ enhanced_content record = firstn (Z.to_nat 10000) enhanced
    /\ users db' = users db.
Proof.
  intros Hclient Hset Hupdate.
  unfold save_to_firestore, save_body, doc_set, increment_doc_count.
  rewrite Hclient, Hset.
  destruct Hupdate as [(e & He & Hexc)|[He Huser]]; rewrite He.
  - rewrite Hexc. eexists _, _, _. split; [reflexivity|].
    cbn [documents users]. split; [apply lookup_insert_eq|].
    repeat split.
  - cbn [users]. rewrite Huser. cbn [is_Exception exn_cls].
    eexists _, _, _. split; [reflexivity|].
    cbn [documents users]. split; [apply lookup_insert_eq|].
    repeat split.
Qed.

Lemma record_stored_for_unknown_user :
  exists db' message record,
    save_to_firestore fine (lit "u2") (lit "a.txt") (lit "old") (lit "new") one_user
      = (db', [message], inr None)
    /\ documents db' !! (lit "u2", auto_id fine) = Some record
    /\ original_content record = firstn (Z.to_nat 10000) (lit "old")
    /\ enhanced_content record = firstn (Z.to_nat 10000) (lit "new")
    /\ users db' = users one_user.
Proof.
  apply (record_stored_though_save_fails fine (lit "u2") (lit "a.txt")
           (lit "old") (lit "new") one_user).
  - reflexivity.
  - reflexivity.
  - right. split; reflexivity.
Defined.



End SaveFacts.

(** ** More on the extraction pipeline and the document builder *)
Module ExtractFacts.
Import Processor PyFacts ProcessorFacts.

Lemma endswith_last_char (stem suffix : str) (c d : N) :
  c <> d -> endswith (stem ++ [c]) (suffix ++ [d]) = false.
Proof.
  intros Hcd. unfold endswith. rewrite !rev_unit. cbn [startswith].
  destruct (N.eqb_spec d c) as [->|]; [congruence|reflexivity].
Qed.

(** X10: The suffix test looks at the characters as they are: a name whose
    last character is none of [t], [x], [f] (an upper-case extension,
    say) is rejected as unsupported, whatever the file holds. *)
Theorem name_not_ending_in_t_x_f_is_rejected
    (L : libs) (stem : str) (c : N) (content : bytes) (fs : gmap str bytes) :
  c <> 116%N -> c <> 120%N -> c <> 102%N ->
  process_document L (Upload (stem ++ [c]) content) fs =
    (fs, [],
     inl (ExtractionFailure (lit "Unsupported file format: " ++ stem ++ [c]))).
Proof.
  intros Ht Hx Hf. unfold process_document.
  rewrite dispatch_unsupported; [reflexivity| | |]; cbn [name].
  - apply (endswith_last_char stem (lit ".tx") c 116%N Ht).
  - apply (endswith_last_char stem (lit ".doc") c 120%N Hx).
  - apply (endswith_last_char stem (lit ".pd") c 102%N Hf).
Qed.

Lemma upper_case_pdf_is_rejected :
  process_document scanned (Upload (lit "SCAN.PD" ++ [70%N]) []) ∅ =
    (∅, [],
     inl (ExtractionFailure (lit "Unsupported file format: " ++ lit "SCAN.PD" ++ [70%N]))).
Proof.
  apply (name_not_ending_in_t_x_f_is_rejected scanned (lit "SCAN.PD") 70%N [] ∅);
    intros H; discriminate H.
Defined.

Lemma extract_pdf_frame (L : libs) (file : upload) (fs : gmap str bytes)
    (path : str) :
  named_temporary_file L <> inr path ->
  (extract_pdf L file fs).1.1 !! path = fs !! path.
Proof.
  intros Hpath. unfold extract_pdf.
  destruct (named_temporary_file L) as [e|tmp_path]; [reflexivity|].
  assert (Hne : tmp_path <> path) by congruence.
  destruct (tmp_write L (data file)) as [e|].
  - cbn. apply lookup_insert_ne. exact Hne.
  - destruct (read_pdf L tmp_path _) as [log r].
    unfold os_unlink. rewrite lookup_insert_eq. cbn.
    rewrite lookup_delete_ne, !lookup_insert_ne by exact Hne. reflexivity.
Qed.

(** X11: [process_document] touches no file but its temporary one: every
    other path holds afterwards what it held before; and an upload
    whose name does not end in [.pdf] leaves the file system as it is
    and calls neither the PDF nor the OCR library. *)
Theorem process_document_touches_only_its_temporary_file
    (L : libs) (file : upload) (fs : gmap str bytes) :
  (forall path,
     named_temporary_file L <> inr path ->
     (process_document L file fs).1.1 !! path = fs !! path)
  /\ (endswith (name file) (lit ".pdf") = false ->
      (process_document L file fs).1.1 = fs
      /\ (process_document L file fs).1.2 = []).
Proof.
  split.
  - intros path Hpath.
    assert (Hd : (dispatch L file fs).1.1 !! path = fs !! path).
    { unfold dispatch.
      destruct (endswith (name file) (lit ".txt")); [reflexivity|].
      destruct (endswith (name file) (lit ".docx")); [reflexivity|].
      destruct (endswith (name file) (lit ".pdf")); [|reflexivity].
      apply extract_pdf_frame. exact Hpath. }
    unfold process_document.
    destruct (dispatch L file fs) as [[fs' log] [e|text]]; cbn in *.
    + destruct (is_Exception e); exact Hd.
    + exact Hd.
  - intros Hpdf. unfold process_document, dispatch. rewrite Hpdf.
    destruct (endswith (name file) (lit ".txt")).
    + destruct (decode_utf8 L (data file)) as [e|text];
        [destruct (is_Exception e)|]; split; reflexivity.
    + destruct (endswith (name file) (lit ".docx")).
      * destruct (docx_paragraphs L (data file)) as [e|ps];
          [destruct (is_Exception e)|]; split; reflexivity.
      * cbn [is_Exception exn_cls]. split; reflexivity.
Qed.

(** X12: Once the upload has been written into the temporary file, that
    file does not exist when [process_document] returns, whether it
    returns a text or raises: the parsing, a page, the rendering or
    the OCR may fail as they will. *)
Theorem tmp_file_gone_once_written
    (L : libs) (file : upload) (fs : gmap str bytes) (tmp_path : str) :
  endswith (name file) (lit ".pdf") = true ->
  named_temporary_file L = inr tmp_path ->
  tmp_write L (data file) = None ->
  (process_document L file fs).1.1 !! tmp_path = None.
Proof.
  intros Hpdf Htmp Hwrite.
  pose proof (extract_pdf_unlinks L file fs tmp_path Htmp Hwrite) as H.
  unfold process_document. rewrite (dispatch_pdf L file fs Hpdf).
  destruct (extract_pdf L file fs) as [[fs' log] [e|text]]; cbn in *.
  - destruct (is_Exception e); exact H.
  - exact H.
Qed.

Lemma tmp_file_removed_when_parser_fails :
  (process_document broken_pdf pdf_upload ∅).1.1 !! lit "/tmp/tmpa1.pdf" = None.
Proof.
  apply (tmp_file_gone_once_written broken_pdf pdf_upload ∅ (lit "/tmp/tmpa1.pdf"));
    reflexivity.
Defined.

Lemma pages_loop_until_failure (L : libs) (tmp_path : str) (fs : gmap str bytes)
    (good : list str) (e : exn) (rest : list (exn + str)) (text : str) :
  forallb truthy good = true ->
  pages_loop L tmp_path fs (List.map inr good ++ inl e :: rest) text =
    (repeat EvExtractText (S (length good)), inl e).
Proof.
  revert text. induction good as [|pt good IH]; intros text Hgood.
  - reflexivity.
  - cbn [forallb] in Hgood. apply andb_true_iff in Hgood as [Hpt Hgood].
    cbn [List.map app pages_loop]. rewrite Hpt, IH by exact Hgood.
    reflexivity.
Qed.

(** X13: When [extract_text] raises on a page that follows pages with a
    text layer, the extraction fails with the uniform error carrying
    the text of that exception: the text of the earlier pages is
    dropped, the later pages are not read, and the temporary file is
    removed. *)
Theorem failing_page_aborts_the_extraction
    (L : libs) (file : upload) (fs : gmap str bytes) (tmp_path : str)
    (good : list str) (e : exn) (rest : list (exn + str)) :
  endswith (name file) (lit ".pdf") = true ->
  named_temporary_file L = inr tmp_path ->
  tmp_write L (data file) = None ->
  pdf_pages L (data file) = inr (List.map inr good ++ inl e :: rest) ->
  forallb truthy good = true ->
  is_Exception e = true ->
  exists fs',
    process_document L file fs =
      (fs', repeat EvExtractText (S (length good)),
       inl (ExtractionFailure (exn_str e)))
    /\ fs' !! tmp_path = None.
Proof.
  intros Hpdf Htmp Hwrite Hpages Hgood Hexc.
  unfold process_document. rewrite (dispatch_pdf L file fs Hpdf).
  unfold extract_pdf. rewrite Htmp, Hwrite.
  unfold read_pdf, open_rb, os_unlink. rewrite !lookup_insert_eq, Hpages.
  rewrite pages_loop_until_failure by exact Hgood.
  rewrite Hexc. eexists. split; [reflexivity|]. apply lookup_delete_eq.
Qed.

Lemma failing_second_page_aborts :
  exists fs',
    process_document Cases.bad_second_page pdf_upload ∅ =
      (fs', repeat EvExtractText (S (length [lit "one"])),
       inl (ExtractionFailure (exn_str (Exn OtherException (lit "bad page")))))
    /\ fs' !! lit "/tmp/tmpa1.pdf" = None.
Proof.
  apply (failing_page_aborts_the_extraction Cases.bad_second_page pdf_upload ∅
           (lit "/tmp/tmpa1.pdf") [lit "one"]
           (Exn OtherException (lit "bad page")) [inr (lit "three")]);
    reflexivity.
Defined.

Lemma scanned_pdf_touches_only_its_temporary_file :
  (process_document scanned pdf_upload {[ lit "/data/keep.txt" := [Byte.x41] ]}).1.1
    !! lit "/data/keep.txt"
  = ({[ lit "/data/keep.txt" := [Byte.x41] ]} : gmap str bytes) !! lit "/data/keep.txt"
  /\ (process_document scanned png_upload ∅).1.1 = ∅
  /\ (process_document scanned png_upload ∅).1.2 = [].
Proof.
  destruct (process_document_touches_only_its_temporary_file scanned pdf_upload
              {[ lit "/data/keep.txt" := [Byte.x41] ]}) as [Hframe _].
  destruct (process_document_touches_only_its_temporary_file scanned png_upload ∅)
    as [_ Hother].
  split.
  - apply Hframe. intros H. discriminate H.
  - apply Hother. reflexivity.
Defined.

Lemma split_piece (sep : N) (p s : str) :
  ~ List.In sep p ->
  split sep (p ++ sep :: s) = p :: split sep s.
Proof.
  induction p as [|c p IH]; intros Hp.
  - cbn [app split]. rewrite N.eqb_refl. reflexivity.
  - cbn [app split].
    destruct (N.eqb_spec c sep) as [->|Hc]; [exfalso; apply Hp; left; reflexivity|].
    rewrite IH; [reflexivity|]. intros H. apply Hp. right. exact H.
Qed.

Lemma split_whole (sep : N) (p : str) :
  ~ List.In sep p -> split sep p = [p].
Proof.
  induction p as [|c p IH]; intros Hp; [reflexivity|].
  cbn [split].
  destruct (N.eqb_spec c sep) as [->|Hc]; [exfalso; apply Hp; left; reflexivity|].
  rewrite IH; [reflexivity|]. intros H. apply Hp. right. exact H.
Qed.

(** Splitting what [join] glued gives the pieces back, when none of
    them holds the separator. *)
Lemma split_join (sep : N) (pieces : list str) :
  pieces <> [] ->
  Forall (fun p => ~ List.In sep p) pieces ->
  split sep (join [sep] pieces) = pieces.
Proof.
  induction pieces as [|p pieces IH]; intros Hne Hall; [congruence|].
  inversion Hall as [|? ? Hp Hrest]; subst.
  destruct pieces as [|q pieces].
  - cbn [join]. apply split_whole. exact Hp.
  - change (join [sep] (p :: q :: pieces))
      with (p ++ sep :: join [sep] (q :: pieces)).
    rewrite split_piece by exact Hp.
    rewrite IH; [reflexivity|discriminate|exact Hrest].
Qed.

(** X14: From a Word upload to the Word download: when no paragraph of the
    uploaded file holds a newline and the Word library takes back
    those that are not blank (they were read from a Word file), the
    document built from
    the extracted text has, after its heading, the paragraphs of the
    upload that are not blank, in their order; the blank ones are
    lost. *)
Theorem word_upload_rebuilt_without_blank_paragraphs
    (L : libs) (W : word_lib) (file : upload) (fs : gmap str bytes)
    (paragraphs : list str) :
  endswith (name file) (lit ".txt") = false ->
  endswith (name file) (lit ".docx") = true ->
  docx_paragraphs L (data file) = inr paragraphs ->
  Forall (fun p => ~ List.In NL p) paragraphs ->
  (forall p, List.In p paragraphs -> forallb isspace p = false ->
             add_paragraph_error W p = None) ->
  process_document L file fs = (fs, [], inr (join [NL] paragraphs))
  /\ create_word_doc W (join [NL] paragraphs) =
       inr {| saved :=
                Heading (lit "Enhanced Document") 1
                :: List.map Paragraph
                     (List.filter (fun p => negb (forallb isspace p)) paragraphs);
              position := 0 |}.
Proof.
  intros Htxt Hdocx Hparagraphs Hnl Hok. split.
  - unfold process_document, dispatch. rewrite Htxt, Hdocx, Hparagraphs.
    reflexivity.
  - unfold create_word_doc.
    destruct paragraphs as [|p ps].
    + reflexivity.
    + rewrite split_join; [|discriminate|exact Hnl].
      rewrite add_lines_accepted; [reflexivity|].
      intros line Hline.
      apply filter_In in Hline as [Hline Hblank].
      apply Hok; [exact Hline|]. apply negb_true_iff. exact Hblank.
Qed.

Lemma three_paragraphs_rebuilt_as_two :
  process_document Cases.three_paragraphs Cases.docx_upload ∅
  = (∅, [], inr (join [NL] [lit "Title"; lit "  "; lit "Body text"]))
  /\ create_word_doc python_docx (join [NL] [lit "Title"; lit "  "; lit "Body text"]) =
       inr {| saved :=
                Heading (lit "Enhanced Document") 1
                :: List.map Paragraph
                     (List.filter (fun p => negb (forallb isspace p))
                        [lit "Title"; lit "  "; lit "Body text"]);
              position := 0 |}.
Proof.
  apply (word_upload_rebuilt_without_blank_paragraphs Cases.three_paragraphs
           python_docx Cases.docx_upload ∅ [lit "Title"; lit "  "; lit "Body text"]).
  - reflexivity.
  - reflexivity.
  - reflexivity.
  - repeat constructor; vm_compute; intuition discriminate.
  - intros p [<-|[<-|[<-|[]]]] _; reflexivity.
Defined.

Lemma split_forallb (f : N -> bool) (sep : N) (s : str) :
  forallb f s = true ->
  Forall (fun piece => forallb f piece = true) (split sep s).
Proof.
  induction s as [|c s IH]; intros Hs.
  - repeat constructor.
  - cbn [forallb] in Hs. apply andb_true_iff in Hs as [Hc Hs].
    specialize (IH Hs). cbn [split].
    destruct (N.eqb c sep).
    + constructor; [reflexivity|exact IH].
    + destruct (split sep s) as [|piece pieces].
      * repeat constructor. cbn. rewrite Hc. reflexivity.
      * inversion IH as [|? ? Hp Hps]; subst.
        constructor; [|exact Hps]. cbn. rewrite Hc, Hp. reflexivity.
Qed.

(** X15: A text made of white space only (blanks, tabs, newlines, ...)
    gives a document with the heading and no paragraph, whatever the
    Word library refuses: [add_paragraph] is not called. *)
Theorem blank_text_gives_the_heading_alone (W : word_lib) (content : str) :
  forallb isspace content = true ->
  create_word_doc W content
  = inr {| saved := [Heading (lit "Enhanced Document") 1]; position := 0 |}.
Proof.
  intros Hblank. unfold create_word_doc.
  pose proof (split_forallb isspace NL content Hblank) as Hall.
  assert (Hnone : List.filter (fun line => negb (forallb isspace line))
                    (split NL content) = []).
  { induction Hall as [|piece more Hp _ IH]; [reflexivity|].
    cbn [List.filter]. rewrite Hp. exact IH. }
  rewrite add_lines_accepted.
  - rewrite Hnone. reflexivity.
  - rewrite Hnone. intros line [].
Qed.

Lemma blank_lines_give_the_heading_alone :
  create_word_doc python_docx (lit "  " ++ [NL; 9%N; NL] ++ lit " ")
  = inr {| saved := [Heading (lit "Enhanced Document") 1]; position := 0 |}.
Proof.
  apply (blank_text_gives_the_heading_alone python_docx
           (lit "  " ++ [NL; 9%N; NL] ++ lit " ")).
  reflexivity.
Defined.

End ExtractFacts.

(** ** Accounts and the session *)
Module AuthFacts.
Import Auth.

Lemma truthy_nonempty (s : str) : s <> [] -> truthy s = true.
Proof. destruct s; [congruence|reflexivity]. Qed.

(** X16: [firebase_login] never looks at the password beyond its being
    non-empty: two non-empty passwords give the same result and the
    same state, for every account and every state of the services. *)
Theorem login_does_not_check_the_password
    (E : env) (email password password' : str) (st : state) :
  password <> [] -> password' <> [] ->
  firebase_login E email password st = firebase_login E email password' st.
Proof.
  intros Hp Hp'. unfold firebase_login, login_body.
  rewrite (truthy_nonempty password Hp), (truthy_nonempty password' Hp').
  reflexivity.
Qed.

(** X17: A login with a known e-mail address and any non-empty password,
    when the user has a document and no call fails, returns the
    account; it changes nothing but the field [last_login] of that
    document, which becomes the server time. *)
Theorem login_returns_the_account_and_stamps_last_login
    (E : env) (email password : str) (st : state)
    (user : UserRecord) (doc : gmap str field) :
  email <> [] -> password <> [] ->
  lookup_error E = None -> client_error E = None ->
  get_error E = None -> update_error E = None ->
  accounts st !! email = Some user ->
  user_docs st !! uid user = Some doc ->
  exists st' doc',
    firebase_login E email password st = (st', inr user)
    /\ accounts st' = accounts st
    /\ user_docs st' !! uid user = Some doc'
    /\ doc' !! lit "last_login" = Some (FTimestamp (server_time E))
    /\ (forall key, key <> lit "last_login" -> doc' !! key = doc !! key)
    /\ (forall u, u <> uid user -> user_docs st' !! u = user_docs st !! u).
Proof.
  intros He Hp Hlookup Hclient Hget Hupdate Haccount Hdoc.
  unfold firebase_login, login_body, get_user_by_email.
  rewrite (truthy_nonempty email He), (truthy_nonempty password Hp).
  cbn [negb orb].
  rewrite Hlookup, Haccount, Hclient, Hget, Hdoc, Hupdate.
  eexists _, _. split; [reflexivity|]. cbn [accounts user_docs].
  split; [reflexivity|]. split; [apply lookup_insert_eq|].
  split; [apply lookup_insert_eq|]. split.
  - intros key Hkey. apply lookup_insert_ne. congruence.
  - intros u Hu. apply lookup_insert_ne. congruence.
Qed.

(** X18: A login that raises leaves the accounts and the documents as they
    were, and what it raises, when it derives from [Exception], is an
    [AuthError]. *)
Theorem failed_login_changes_nothing
    (E : env) (email password : str) (st st' : state) (f : failure) :
  firebase_login E email password st = (st', inl f) ->
  st' = st /\ (is_exception f = true -> exists message, f = AuthError message).
Proof.
  unfold firebase_login, login_body, get_user_by_email.
  assert (Hh : forall f0, is_exception (login_handlers f0) = true ->
                          exists message, login_handlers f0 = AuthError message).
  { intros f0. unfold login_handlers.
    destruct f0; cbn [is_exception]; eauto.
    destruct (is_Exception e) eqn:Hexc; [eauto|].
    cbn [is_exception]. rewrite Hexc. intros H. discriminate H. }
  destruct (negb (truthy email) || negb (truthy password)).
  { intros H. injection H as <- <-. split; [reflexivity|]. first [apply Hh | intros _; eexists; reflexivity]. }
  destruct (lookup_error E) as [f0|].
  { intros H. injection H as <- <-. split; [reflexivity|]. first [apply Hh | intros _; eexists; reflexivity]. }
  destruct (accounts st !! email) as [user|].
  2:{ intros H. injection H as <- <-. split; [reflexivity|]. first [apply Hh | intros _; eexists; reflexivity]. }
  destruct (client_error E) as [f0|].
  { intros H. injection H as <- <-. split; [reflexivity|]. first [apply Hh | intros _; eexists; reflexivity]. }
  destruct (get_error E) as [f0|].
  { intros H. injection H as <- <-. split; [reflexivity|]. first [apply Hh | intros _; eexists; reflexivity]. }
  destruct (user_docs st !! uid user) as [doc|].
  2:{ intros H. injection H as <- <-. split; [reflexivity|]. first [apply Hh | intros _; eexists; reflexivity]. }
  destruct (update_error E) as [f0|].
  { intros H. injection H as <- <-. split; [reflexivity|]. first [apply Hh | intros _; eexists; reflexivity]. }
  intros H. discriminate H.
Qed.

(** X19: What a refused login says. A missing field: the [AuthError] of
    line 81 is caught by the last handler and raised again as
    "Login error: Email and password are required". An unknown
    address: "Invalid email or password". An account without a
    document in [users]: "Login error: User account not properly
    registered". *)
Theorem login_refusals (E : env) (email password : str) (st : state) :
  (email = [] \/ password = [] ->
   firebase_login E email password st
   = (st, inl (AuthError (lit "Login error: Email and password are required"))))
  /\ (email <> [] -> password <> [] -> lookup_error E = None ->
      accounts st !! email = None ->
      firebase_login E email password st
      = (st, inl (AuthError (lit "Invalid email or password"))))
  /\ (forall user,
        email <> [] -> password <> [] -> lookup_error E = None ->
        client_error E = None -> get_error E = None ->
        accounts st !! email = Some user ->
        user_docs st !! uid user = None ->
        firebase_login E email password st
        = (st, inl (AuthError
                      (lit "Login error: User account not properly registered")))).
Proof.
  unfold firebase_login, login_body, get_user_by_email.
  split; [|split].
  - intros [-> | ->]; [reflexivity|].
    destruct (truthy email); reflexivity.
  - intros He Hp Hlookup Haccount.
    rewrite (truthy_nonempty email He), (truthy_nonempty password Hp).
    cbn [negb orb]. rewrite Hlookup, Haccount. reflexivity.
  - intros user He Hp Hlookup Hclient Hget Haccount Hdoc.
    rewrite (truthy_nonempty email He), (truthy_nonempty password Hp).
    cbn [negb orb]. rewrite Hlookup, Haccount, Hclient, Hget, Hdoc. reflexivity.
Qed.

Lemma login_with_any_password :
  firebase_login service (lit "a@x.org") (lit "secret") Cases.registered
  = firebase_login service (lit "a@x.org") (lit "x") Cases.registered.
Proof.
  apply (login_does_not_check_the_password service (lit "a@x.org")
           (lit "secret") (lit "x") Cases.registered);
    intros H; discriminate H.
Defined.

Lemma login_of_alice :
  exists st' doc',
    firebase_login service (lit "a@x.org") (lit "x") Cases.registered
    = (st', inr Cases.alice)
    /\ accounts st' = accounts Cases.registered
    /\ user_docs st' !! uid Cases.alice = Some doc'
    /\ doc' !! lit "last_login" = Some (FTimestamp (server_time service))
    /\ (forall key, key <> lit "last_login" ->
        doc' !! key
        = user_data service Cases.alice (lit "a@x.org") (lit "Alice") !! key)
    /\ (forall u, u <> uid Cases.alice ->
        user_docs st' !! u = user_docs Cases.registered !! u).
Proof.
  apply (login_returns_the_account_and_stamps_last_login service
           (lit "a@x.org") (lit "x") Cases.registered Cases.alice
           (user_data service Cases.alice (lit "a@x.org") (lit "Alice")));
    try reflexivity; intros H; discriminate H.
Defined.

Lemma failed_login_of_orphaned_account :
  (firebase_login service (lit "a@x.org") (lit "x") Cases.orphaned).1 = Cases.orphaned
  /\ (is_exception
        (AuthError (lit "Login error: User account not properly registered")) = true ->
      exists message,
        AuthError (lit "Login error: User account not properly registered")
        = AuthError message).
Proof.
  apply (failed_login_changes_nothing service (lit "a@x.org") (lit "x")
           Cases.orphaned).
  vm_compute. reflexivity.
Defined.

Lemma login_refusals_seen :
  firebase_login service (lit "a@x.org") [] Cases.registered
  = (Cases.registered,
     inl (AuthError (lit "Login error: Email and password are required")))
  /\ firebase_login service (lit "b@x.org") (lit "x") Cases.registered
     = (Cases.registered, inl (AuthError (lit "Invalid email or password")))
  /\ firebase_login service (lit "a@x.org") (lit "x") Cases.orphaned
     = (Cases.orphaned,
        inl (AuthError (lit "Login error: User account not properly registered"))).
Proof.
  split; [|split].
  - apply (login_refusals service (lit "a@x.org") [] Cases.registered).
    right. reflexivity.
  - apply (login_refusals service (lit "b@x.org") (lit "x") Cases.registered);
      try reflexivity; intros H; discriminate H.
  - apply (login_refusals service (lit "a@x.org") (lit "x") Cases.orphaned)
      with (user := Cases.alice);
      try reflexivity; intros H; discriminate H.
Defined.

(** X20: A registration with three non-empty fields, a password of six
    characters or more and a free e-mail address, when no call fails,
    returns the new account; the account is stored under the address,
    the user's document holds the six fields of lines 57-64 with
    [doc_count] 0, and the documents of the other users are as they
    were. *)
Theorem signup_creates_account_and_document
    (E : env) (email password username : str) (st : state) :
  email <> [] -> password <> [] -> username <> [] ->
  6 <= Z.of_nat (length password) ->
  create_error E = None -> client_error E = None -> set_error E = None ->
  accounts st !! email = None ->
  let user := {| uid := new_uid E; email := email; display_name := username |} in
  exists st' doc,
    firebase_signup E email password username st = (st', inr user)
    /\ accounts st' = <[email := user]> (accounts st)
    /\ user_docs st' !! new_uid E = Some doc
    /\ doc !! lit "uid" = Some (FStr (new_uid E))
    /\ doc !! lit "email" = Some (FStr email)
    /\ doc !! lit "username" = Some (FStr username)
    /\ doc !! lit "created_at" = Some (FTimestamp (server_time E))
    /\ doc !! lit "last_login" = Some (FTimestamp (server_time E))
    /\ doc !! lit "doc_count" = Some (FInt 0)
    /\ size doc = 6%nat
    /\ (forall u, u <> new_uid E -> user_docs st' !! u = user_docs st !! u).
Proof.
  intros He Hp Hu Hlen Hcreate Hclient Hset Hfree user.
  unfold firebase_signup, signup_body, create_user.
  rewrite (truthy_nonempty email He), (truthy_nonempty password Hp),
    (truthy_nonempty username Hu).
  cbn [andb negb].
  destruct (Z.ltb_spec (Z.of_nat (length password)) 6) as [Hlt|_]; [lia|].
  rewrite Hcreate, Hfree, Hclient, Hset.
  eexists _, _. split; [reflexivity|]. cbn [accounts user_docs uid].
  split; [reflexivity|]. split; [apply lookup_insert_eq|].
  repeat split; try reflexivity.
  intros u Hne. apply lookup_insert_ne. congruence.
Qed.

Lemma signup_of_bob :
  exists st' doc,
    firebase_signup service (lit "b@x.org") (lit "hunter22") (lit "Bob")
      Cases.registered
    = (st', inr {| uid := new_uid service; email := lit "b@x.org";
                   display_name := lit "Bob" |})
    /\ accounts st'
       = <[lit "b@x.org" := {| uid := new_uid service; email := lit "b@x.org";
                               display_name := lit "Bob" |}]>
           (accounts Cases.registered)
    /\ user_docs st' !! new_uid service = Some doc
    /\ doc !! lit "uid" = Some (FStr (new_uid service))
    /\ doc !! lit "email" = Some (FStr (lit "b@x.org"))
    /\ doc !! lit "username" = Some (FStr (lit "Bob"))
    /\ doc !! lit "created_at" = Some (FTimestamp (server_time service))
    /\ doc !! lit "last_login" = Some (FTimestamp (server_time service))
    /\ doc !! lit "doc_count" = Some (FInt 0)
    /\ size doc = 6%nat
    /\ (forall u, u <> new_uid service ->
        user_docs st' !! u = user_docs Cases.registered !! u).
Proof.
  apply (signup_creates_account_and_document service (lit "b@x.org")
           (lit "hunter22") (lit "Bob") Cases.registered);
    try reflexivity; try (intros H; discriminate H).
Defined.

(** X21: Registration then login: after a registration that succeeded, a
    login with the same address and any non-empty password returns the
    account that the registration returned. *)
Theorem login_after_signup
    (E E' : env) (email password username password' : str)
    (st st1 : state) (user : UserRecord) :
  firebase_signup E email password username st = (st1, inr user) ->
  password' <> [] ->
  lookup_error E' = None -> client_error E' = None ->
  get_error E' = None -> update_error E' = None ->
  exists st2, firebase_login E' email password' st1 = (st2, inr user).
Proof.
  unfold firebase_signup, signup_body, create_user.
  destruct (truthy email) eqn:He, (truthy password), (truthy username);
    cbn [andb negb]; try (intros H; discriminate H).
  destruct (Z.of_nat (length password) <? 6); [intros H; discriminate H|].
  destruct (create_error E); [intros H; discriminate H|].
  destruct (accounts st !! email); [intros H; discriminate H|].
  destruct (client_error E); [intros H; discriminate H|].
  destruct (set_error E); [intros H; discriminate H|].
  intros H. injection H as <- <-.
  intros Hp Hlookup Hclient Hget Hupdate.
  unfold firebase_login, login_body, get_user_by_email.
  rewrite He, (truthy_nonempty password' Hp). cbn [negb orb accounts user_docs].
  rewrite Hlookup, lookup_insert_eq, Hclient, Hget.
  cbn [uid]. rewrite lookup_insert_eq, Hupdate.
  eexists. reflexivity.
Qed.

Lemma login_of_bob_after_signup :
  exists st2,
    firebase_login service (lit "b@x.org") (lit "x")
      (firebase_signup service (lit "b@x.org") (lit "hunter22") (lit "Bob")
         Cases.registered).1
    = (st2, inr {| uid := new_uid service; email := lit "b@x.org";
                   display_name := lit "Bob" |}).
Proof.
  apply (login_after_signup service service (lit "b@x.org") (lit "hunter22")
           (lit "Bob") (lit "x") Cases.registered);
    try reflexivity.
  intros H. discriminate H.
Defined.

(** X22: A registration with an address that has an account is refused
    with "Email already in use", and changes nothing. *)
Theorem signup_with_a_taken_address
    (E : env) (email password username : str) (st : state) (user : UserRecord) :
  email <> [] -> password <> [] -> username <> [] ->
  6 <= Z.of_nat (length password) ->
  create_error E = None ->
  accounts st !! email = Some user ->
  firebase_signup E email password username st
  = (st, inl (AuthError (lit "Email already in use"))).
Proof.
  intros He Hp Hu Hlen Hcreate Htaken.
  unfold firebase_signup, signup_body, create_user.
  rewrite (truthy_nonempty email He), (truthy_nonempty password Hp),
    (truthy_nonempty username Hu).
  cbn [andb negb].
  destruct (Z.ltb_spec (Z.of_nat (length password)) 6) as [Hlt|_]; [lia|].
  rewrite Hcreate, Htaken. reflexivity.
Qed.

Lemma signup_of_alice_again :
  firebase_signup service (lit "a@x.org") (lit "hunter22") (lit "Alice")
    Cases.registered
  = (Cases.registered, inl (AuthError (lit "Email already in use"))).
Proof.
  apply (signup_with_a_taken_address service (lit "a@x.org") (lit "hunter22")
           (lit "Alice") Cases.registered Cases.alice);
    try reflexivity; try (intros H; discriminate H).
Defined.

(** X23: When the account is created and the write of the user's document
    then fails, the registration raises and the account stays, without
    a document: a login with that address is refused with "User account
    not properly registered", and a second registration with "Email
    already in use". *)
Theorem signup_leaves_an_account_without_document
    (E E' : env) (email password username : str) (st : state) (f : failure) :
  email <> [] -> password <> [] -> username <> [] ->
  6 <= Z.of_nat (length password) ->
  create_error E = None -> accounts st !! email = None ->
  client_error E = Some f \/ (client_error E = None /\ set_error E = Some f) ->
  user_docs st !! new_uid E = None ->
  lookup_error E' = None -> client_error E' = None -> get_error E' = None ->
  create_error E' = None ->
  exists st1,
    firebase_signup E email password username st = (st1, inl (signup_handlers E f))
    /\ accounts st1 !! email
       = Some {| uid := new_uid E; email := email; display_name := username |}
    /\ user_docs st1 = user_docs st
    /\ firebase_login E' email password st1
       = (st1, inl (AuthError
                      (lit "Login error: User account not properly registered")))
    /\ firebase_signup E' email password username st1
       = (st1, inl (AuthError (lit "Email already in use"))).
Proof.
  intros He Hp Hu Hlen Hcreate Hfree Hfail Hnodoc Hlookup Hclient Hget Hcreate'.
  unfold firebase_signup at 1. unfold signup_body, create_user.
  rewrite (truthy_nonempty email He), (truthy_nonempty password Hp),
    (truthy_nonempty username Hu).
  cbn [andb negb].
  destruct (Z.ltb_spec (Z.of_nat (length password)) 6) as [Hlt|_]; [lia|].
  rewrite Hcreate, Hfree.
  eexists. split.
  - destruct Hfail as [Hc|[Hc Hs]]; rewrite Hc; [|rewrite Hs]; reflexivity.
  - cbn [accounts user_docs]. split; [apply lookup_insert_eq|].
    split; [reflexivity|]. split.
    + unfold firebase_login, login_body, get_user_by_email.
      rewrite (truthy_nonempty email He), (truthy_nonempty password Hp).
      cbn [negb orb accounts user_docs].
      rewrite Hlookup, lookup_insert_eq, Hclient, Hget.
      cbn [uid]. rewrite Hnodoc. reflexivity.
    + unfold firebase_signup, signup_body, create_user.
      rewrite (truthy_nonempty email He), (truthy_nonempty password Hp),
        (truthy_nonempty username Hu).
      cbn [andb negb accounts].
      destruct (Z.ltb_spec (Z.of_nat (length password)) 6) as [Hlt|_]; [lia|].
      rewrite Hcreate', lookup_insert_eq. reflexivity.
Qed.

Lemma signup_of_bob_without_firestore :
  exists st1,
    firebase_signup firestore_down (lit "b@x.org") (lit "hunter22") (lit "Bob") nobody
    = (st1, inl (signup_handlers firestore_down
                   (Other (Exn OtherException (lit "503 unavailable")))))
    /\ accounts st1 !! lit "b@x.org"
       = Some {| uid := new_uid firestore_down; email := lit "b@x.org";
                 display_name := lit "Bob" |}
    /\ user_docs st1 = user_docs nobody
    /\ firebase_login service (lit "b@x.org") (lit "hunter22") st1
       = (st1, inl (AuthError
                      (lit "Login error: User account not properly registered")))
    /\ firebase_signup service (lit "b@x.org") (lit "hunter22") (lit "Bob") st1
       = (st1, inl (AuthError (lit "Email already in use"))).
Proof.
  apply (signup_leaves_an_account_without_document firestore_down service
           (lit "b@x.org") (lit "hunter22") (lit "Bob") nobody
           (Other (Exn OtherException (lit "503 unavailable"))));
    try reflexivity; try (intros H; discriminate H).
  right. split; reflexivity.
Defined.

(** X24: A registration with an empty field or a password of fewer than
    six characters creates nothing. It raises, but not the message of
    lines 46 and 48 as it is: the [AuthError] raised there is caught by
    the handlers of the function itself, which turn it into
    "Registration failed: " followed by the message when
    [firebase_admin.auth] has a [WeakPasswordError], and into the
    [AttributeError] of that lookup when it has none. *)
Theorem signup_validation_creates_nothing
    (E : env) (email password username : str) (st : state) :
  email = [] \/ password = [] \/ username = []
  \/ Z.of_nat (length password) < 6 ->
  exists message,
    (message = lit "All fields are required"
     \/ message = lit "Password must be at least 6 characters")
    /\ firebase_signup E email password username st
       = (st, inl (if has_WeakPasswordError E
                   then AuthError (lit "Registration failed: " ++ message)
                   else AttributeError
                          (lit "module 'firebase_admin.auth' has no attribute 'WeakPasswordError'"))).
Proof.
  intros Hbad. unfold firebase_signup, signup_body.
  destruct (negb (truthy email && truthy password && truthy username)) eqn:Hall.
  - exists (lit "All fields are required"). split; [left; reflexivity|].
    unfold signup_handlers. destruct (has_WeakPasswordError E); reflexivity.
  - destruct (Z.ltb_spec (Z.of_nat (length password)) 6) as [Hlt|Hge].
    + exists (lit "Password must be at least 6 characters").
      split; [right; reflexivity|].
      unfold signup_handlers. destruct (has_WeakPasswordError E); reflexivity.
    + exfalso. apply negb_false_iff in Hall.
      apply andb_true_iff in Hall as [Hall Hu].
      apply andb_true_iff in Hall as [He Hp].
      destruct Hbad as [-> | [-> | [-> | Hlt]]];
        try discriminate; lia.
Qed.

Lemma signup_with_short_password :
  exists message,
    (message = lit "All fields are required"
     \/ message = lit "Password must be at least 6 characters")
    /\ firebase_signup service_with_name (lit "b@x.org") (lit "abc") (lit "Bob") nobody
       = (nobody,
          inl (if has_WeakPasswordError service_with_name
               then AuthError (lit "Registration failed: " ++ message)
               else AttributeError
                      (lit "module 'firebase_admin.auth' has no attribute 'WeakPasswordError'"))).
Proof.
  apply (signup_validation_creates_nothing service_with_name (lit "b@x.org")
           (lit "abc") (lit "Bob") nobody).
  right. right. right. vm_compute. reflexivity.
Defined.

Lemma del_if_present_delete (key : str) (session : gmap str session_value) :
  del_if_present key session = delete key session.
Proof.
  unfold del_if_present.
  destruct (session !! key) eqn:H; [reflexivity|].
  symmetry. apply delete_id. exact H.
Qed.

(** X25: After [logout_user] nobody is authenticated: the keys [user],
    [enhanced_text] and [last_doc_id] are gone from the session, so the
    text of the user who leaves is not shown to the next one, and every
    other key holds what it held. *)
Theorem logout_clears_the_session (session : gmap str session_value) :
  is_authenticated (logout_user session) = false
  /\ logout_user session !! lit "user" = None
  /\ logout_user session !! lit "enhanced_text" = None
  /\ logout_user session !! lit "last_doc_id" = None
  /\ (forall key,
        key <> lit "user" -> key <> lit "enhanced_text" ->
        key <> lit "last_doc_id" ->
        logout_user session !! key = session !! key).
Proof.
  assert (Huser : logout_user session !! lit "user" = None).
  { unfold logout_user. rewrite !del_if_present_delete.
    rewrite !lookup_delete_ne by (intros H; discriminate H).
    apply lookup_delete_eq. }
  split; [unfold is_authenticated; rewrite Huser; reflexivity|].
  split; [exact Huser|].
  unfold logout_user. rewrite !del_if_present_delete.
  split; [|split].
  - rewrite lookup_delete_ne by (intros H; discriminate H).
    apply lookup_delete_eq.
  - apply lookup_delete_eq.
  - intros key H1 H2 H3.
    rewrite !lookup_delete_ne by congruence. reflexivity.
Qed.

Lemma logout_of_busy_session :
  is_authenticated (logout_user Cases.busy_session) = false
  /\ logout_user Cases.busy_session !! lit "user" = None
  /\ logout_user Cases.busy_session !! lit "enhanced_text" = None
  /\ logout_user Cases.busy_session !! lit "last_doc_id" = None
  /\ logout_user Cases.busy_session !! lit "theme"
     = Cases.busy_session !! lit "theme".
Proof.
  destruct (logout_clears_the_session Cases.busy_session)
    as (Hauth & Huser & Htext & Hdoc & Hframe).
  repeat (split; [assumption|]).
  apply Hframe; intros H; discriminate H.
Defined.

End AuthFacts.
